(** * Gauge runner supervision: a shallow embedding of [runner/runner.go]

    The development follows the Go source function by function.  Go strings
    are byte sequences and are modelled by [string]; Go slices are views on
    backing arrays kept in a store; the calls into the operating system and
    into collaborating packages are answered by a [World] of oracles and are
    recorded, in program order, in a trace of events. *)

From Stdlib Require Import ZArith Ascii String List Bool Lia DecimalString.
From stdpp Require Import base option list gmap strings.

Local Open Scope string_scope.
Local Open Scope list_scope.

(** ** Go strings *)

Module GoStrings.

Definition bytes (l : list nat) : string :=
  string_of_list_ascii (List.map ascii_of_nat l).

(** [strings.Split(s, sep)] for a one-byte separator: the pieces of [s]
    between the occurrences of [sep]; never empty. *)
Fixpoint Split (sep : ascii) (s : string) : list string :=
  match s with
  | EmptyString => [EmptyString]
  | String a r =>
      if Ascii.eqb a sep then EmptyString :: Split sep r
      else match Split sep r with
           | h :: t => String a h :: t
           | [] => [String a EmptyString]
           end
  end.

(** The UTF-8 encodings of the code points for which [unicode.IsSpace]
    holds: tab, LF, VT, FF, CR, space, U+0085, U+00A0, U+1680,
    U+2000..U+200A, U+2028, U+2029, U+202F, U+205F, U+3000. *)
Definition space_runes : list string :=
  List.map bytes
    [ [9]; [10]; [11]; [12]; [13]; [32]; [194; 133]; [194; 160];
      [225; 154; 128];
      [226; 128; 128]; [226; 128; 129]; [226; 128; 130]; [226; 128; 131];
      [226; 128; 132]; [226; 128; 133]; [226; 128; 134]; [226; 128; 135];
      [226; 128; 136]; [226; 128; 137]; [226; 128; 138];
      [226; 128; 168]; [226; 128; 169]; [226; 128; 175];
      [226; 129; 159]; [227; 128; 128] ].

(** The string left after a leading rune of [runes], if it starts with one. *)
Fixpoint strip_rune (runes : list string) (s : string) : option string :=
  match runes with
  | [] => None
  | r :: rs =>
      if String.prefix r s
      then Some (String.substring (String.length r)
                                  (String.length s - String.length r) s)
      else strip_rune rs s
  end.

Fixpoint trim_left (runes : list string) (fuel : nat) (s : string) : string :=
  match fuel with
  | 0 => s
  | S fuel' =>
      match strip_rune runes s with
      | Some s' => trim_left runes fuel' s'
      | None => s
      end
  end.

Definition rev_string (s : string) : string :=
  string_of_list_ascii (List.rev (list_ascii_of_string s)).

(** [strings.TrimSpace]: all leading and trailing white space removed. *)
Definition TrimSpace (s : string) : string :=
  let l := trim_left space_runes (String.length s) s in
  rev_string
    (trim_left (List.map rev_string space_runes) (String.length l) (rev_string l)).

End GoStrings.

(** ** [encoding/json]: the value [null] *)

Module GoJSON.
Import GoStrings.

(** The white space of JSON: space, tab, line feed, carriage return. *)
Definition jsonSpace : list string := List.map bytes [[32]; [9]; [10]; [13]].

(** Whether a text is the JSON value [null], white space around it
    allowed.  For such a text [json.Unmarshal] returns a nil error; a
    pointer it decodes into is set to nil, a struct is left as it is. *)
Definition isNull (contents : string) : bool :=
  let l := trim_left jsonSpace (String.length contents) contents in
  String.eqb
    (rev_string
       (trim_left (List.map rev_string jsonSpace) (String.length l)
                  (rev_string l)))
    "null".

End GoJSON.

(** ** Go slices of strings over a store of backing arrays *)

Module GoSlice.

Record slice := mkSlice { base : nat; off : nat; len : nat }.

Abbreviation store := (gmap nat (list string)).

(** The capacity of a slice: what its backing array holds from [off] on. *)
Definition cap (h : store) (s : slice) : nat :=
  match h !! base s with
  | Some a => length a - off s
  | None => 0
  end.

(** The elements a slice shows. *)
Definition contents (h : store) (s : slice) : list string :=
  match h !! base s with
  | Some a => take (len s) (drop (off s) a)
  | None => []
  end.

Definition wf (h : store) (s : slice) : Prop :=
  exists a, h !! base s = Some a /\ off s + len s <= length a.

(** [s[i]] *)
Definition get (h : store) (s : slice) (i : nat) : option string :=
  if decide (i < len s) then
    match h !! base s with
    | Some a => a !! (off s + i)
    | None => None
    end
  else None.

(** [s[i] = v], an update of the backing array. *)
Definition set (h : store) (s : slice) (i : nat) (v : string) : store :=
  match h !! base s with
  | Some a => <[base s := <[off s + i := v]> a]> h
  | None => h
  end.

(** [append(s, v)]: written into the backing array when it has room past
    the slice's end, and into a new, larger array otherwise.  [spare] is
    the number of unused slots the runtime adds to a new array. *)
Definition append (spare : nat -> nat) (h : store) (s : slice) (v : string)
  : slice * store :=
  match h !! base s with
  | Some a =>
      if decide (off s + len s < length a)
      then (mkSlice (base s) (off s) (S (len s)),
            <[base s := <[off s + len s := v]> a]> h)
      else
        let b := fresh (dom h) in
        (mkSlice b 0 (S (len s)),
         <[b := take (len s) (drop (off s) a) ++ v :: replicate (spare (S (len s))) ""]> h)
  | None =>
      let b := fresh (dom h) in
      (mkSlice b 0 1, <[b := v :: replicate (spare 1) ""]> h)
  end.

End GoSlice.

(** ** [getCleanEnv] *)

Module Env.
Import GoStrings GoSlice.

(** Modelled from the spec: the constant [common.GaugeInternalPortEnvName]
    of the imported package [common], the "well-known port variable"
    [GAUGE_INTERNAL_PORT]. *)
Definition GaugeInternalPortEnvName : string := "GAUGE_INTERNAL_PORT".

(** The test of the loop:
    [strings.TrimSpace(strings.Split(k, "=")[0]) == common.GaugeInternalPortEnvName] *)
Definition isPortEntry (k : string) : bool :=
  String.eqb (TrimSpace (List.hd "" (Split "=" k))) GaugeInternalPortEnvName.

Definition portEntry (port : string) : string :=
  GaugeInternalPortEnvName +:+ "=" +:+ port.

(** The [for i, k := range env] loop from index [i] on, [n] iterations
    left; the state is [isPresent] and the store. *)
Fixpoint rangeLoop (port : string) (env : slice) (n i : nat)
         (isPresent : bool) (h : store) : bool * store :=
  match n with
  | 0 => (isPresent, h)
  | S n' =>
      match get h env i with
      | Some k =>
          if isPortEntry k
          then rangeLoop port env n' (S i) true (set h env i (portEntry port))
          else rangeLoop port env n' (S i) isPresent h
      | None => (isPresent, h)
      end
  end.

Definition getCleanEnv (spare : nat -> nat) (port : string) (env : slice)
           (h : store) : slice * store :=
  let '(isPresent, h1) := rangeLoop port env (len env) 0 false h in
  if negb isPresent then append spare h1 env (portEntry port)
  else (env, h1).

(** What the loop and the final [append] amount to on the elements. *)
Definition rewriteEntry (port k : string) : string :=
  if isPortEntry k then portEntry port else k.

Definition cleaned (port : string) (l : list string) : list string :=
  List.map (rewriteEntry port) l
    ++ (if List.existsb isPortEntry l then [] else [portEntry port]).

(** The environment [getCleanEnv] returns, and what the slice the caller
    passed shows once it has returned. *)
Definition childEnv (spare : nat -> nat) (port : string) (env : slice)
           (h : store) : list string :=
  let '(env', h') := getCleanEnv spare port env h in contents h' env'.

Definition callerEnv (spare : nat -> nat) (port : string) (env : slice)
           (h : store) : list string :=
  contents (snd (getCleanEnv spare port env h)) env.

Definition otherEntry (k : string) : bool := negb (isPortEntry k).

(** The separator of name and value. *)
Definition eq_sign : ascii := "="%char.

(** The value of an entry [NAME=value]: what follows the first [=]. *)
Definition entryValue (k : string) : string :=
  String.substring (S (String.length (List.hd "" (Split "=" k))))
                   (String.length k) k.

End Env.

(** ** The runner: data, world, effects *)

Module Model.
Import GoStrings GoSlice Env.

(** Go [error] values, by their message. *)
Definition error := string.

(** The [(value, error)] pair a fallible Go call returns. *)
Inductive result (A : Type) : Type :=
| Ok (a : A)
| Err (e : error).
Arguments Ok {A} a.
Arguments Err {A} e.

Definition is_ok {A} (r : result A) : bool :=
  match r with Ok _ => true | Err _ => false end.

(** *** Data of [runner.go] *)

Record Commands := mkCommands
  { Windows : list string; Linux : list string; Darwin : list string }.

(** Modelled from the spec: the type [version.VersionSupport] of package
    [version], "a version-support range object with minimum/maximum
    version strings". *)
Record VersionSupport := mkVersionSupport
  { Minimum : string; Maximum : string }.

Record Runner := mkRunner
  { Id : string; Name : string; Version : string; Description : string;
    Run : Commands; Init : Commands; Lib : string;
    GaugeVersionSupport : VersionSupport }.

Record Manifest := mkManifest { Language : string }.

Record OsProcess := mkProcess { Pid : Z }.

(** [os.ProcessState], as far as the runner looks at it: what its
    [Exited()] method answers.  A command has a [ProcessState] once its
    process has ended and has been waited for; [Exited()] is true when the
    process ended by its own exit and false when a signal ended it. *)
Record OsProcessState := mkProcessState { Exited : bool }.

(** [exec.Cmd]: [Process] is set once the command is started and
    [ProcessState] once it has been waited for. *)
Record ExecCmd := mkCmd
  { Process : option OsProcess; ProcessState : option OsProcessState }.

(** [net.Conn] values, by name. *)
Definition Conn := nat.

(** A Go channel: its identity and the capacity given to [make]. *)
Record chan := mkChan { chan_id : nat; chan_cap : nat }.

(** [TestRunner]; [Cmd] is a pointer into the store of commands, and a nil
    pointer, interface or channel is [None]. *)
Record TestRunner := mkTestRunner
  { Cmd : option nat; Connection : option Conn; ErrorChannel : option chan }.

Inductive MessageType := KillProcessRequest.

Record Message := mkMessage { MessageId : Z; MessageKind : MessageType }.

Inductive Goroutine :=
| KillWatcher (killChannel : chan) (cmd : nat)
| ExitWatcher (errChannel : chan) (cmd : nat).

(** *** Effects *)

Inductive Event :=
| EBind (port : Z) (ok : bool)
| EResolve (language : string) (ok : bool)
| ERead (path : string) (ok : bool)
| EParse (ok : bool)
| ECompat (ok : bool)
| EExec (command : list string) (dir : string) (env : option (list string))
        (pid : option Z)
| EGo (g : Goroutine)
| EAccept (ok : bool)
| EDebug (msg : string)
| EWarning (msg : string)
| EProcessKill (pid : Z) (ok : bool)
| EWrite (c : Conn) (m : Message)
| EClose (c : Conn)
| ESent (ch : chan) (v : error).

(** What the program does not decide itself. *)
Record World := mkWorld
  { GOOS : string;
    CurrentGaugeVersion : string;
    Environ : list string;
    spare : nat -> nat;
    SetProjectRoot : option error;
    GetPortFromEnvironmentVariable : result Z;
    NewGaugeConnectionHandler : Z -> result Z;
    GetLanguageJSONFilePath : string -> result string;
    ReadFileContents : string -> result string;
    Unmarshal : string -> result Runner;
    Dir : string -> string;
    CheckCompatibility : string -> VersionSupport -> option error;
    ExecuteCommand : list string -> string -> option (list string) -> result Z;
    AcceptConnection : result Conn;
    ProcessKill : Z -> option error;
    Wait : nat -> option error;
    GetUniqueID : nat -> Z;
    (** the number of liveness checks the poller of [Kill] completes
        before the timer of [config.PluginKillTimeout()] fires *)
    PluginKillTimeout : nat;
    (** [ProcessState] of a command as the exit watcher has left it after
        the given number of sleeps *)
    ProcessStateAfter : nat -> nat -> option OsProcessState;
    (** whether a receiver is waiting on a channel *)
    ReceiverWaiting : chan -> bool }.

Record St := mkSt
  { trace : list Event;
    cmds : nat -> ExecCmd;
    next_cmd : nat;
    next_chan : nat;
    sleeps : nat;
    buffered : nat -> list error;
    heap : store }.

Definition emptyCmd : ExecCmd := mkCmd None None.

Definition init_St : St :=
  mkSt [] (fun _ => emptyCmd) 0 0 0 (fun _ => []) ∅.

(** How a Go function body ends: it returns a value with a nil error,
    returns a non-nil error, panics, or blocks for ever. *)
Inductive Exit (A : Type) : Type :=
| Done (a : A)
| Fail (e : error)
| Panic
| Blocked.
Arguments Done {A} a.
Arguments Fail {A} e.
Arguments Panic {A}.
Arguments Blocked {A}.

Definition M (A : Type) : Type := St -> Exit A * St.

Definition ret {A} (a : A) : M A := fun st => (Done a, st).

Definition bind {A B} (m : M A) (k : A -> M B) : M B :=
  fun st =>
    match m st with
    | (Done a, st1) => k a st1
    | (Fail e, st1) => (Fail e, st1)
    | (Panic, st1) => (Panic, st1)
    | (Blocked, st1) => (Blocked, st1)
    end.

Definition fail {A} (e : error) : M A := fun st => (Fail e, st).
Definition panic {A} : M A := fun st => (Panic, st).

(** [x, err := f()] with the error kept for inspection. *)
Definition attempt {A} (m : M A) : M (result A) :=
  fun st =>
    match m st with
    | (Done a, st1) => (Done (Ok a), st1)
    | (Fail e, st1) => (Done (Err e), st1)
    | (Panic, st1) => (Panic, st1)
    | (Blocked, st1) => (Blocked, st1)
    end.

(** [defer d] at the head of [body]: [d] runs when [body] is left. *)
Definition defer {A} (d : M unit) (body : M A) : M A :=
  fun st => let (r, st1) := body st in (r, snd (d st1)).

Definition emit (e : Event) : M unit :=
  fun st => (Done tt,
             mkSt (trace st ++ [e]) (cmds st) (next_cmd st) (next_chan st)
                  (sleeps st) (buffered st) (heap st)).

(** The state after further events. *)
Definition record (l : list Event) (st : St) : St :=
  mkSt (trace st ++ l) (cmds st) (next_cmd st) (next_chan st)
       (sleeps st) (buffered st) (heap st).

Definition lift {A} (r : result A) : M A :=
  match r with Ok a => ret a | Err e => fail e end.

Definition check (o : option error) : M unit :=
  match o with None => ret tt | Some e => fail e end.

Definition get_st : M St := fun st => (Done st, st).

End Model.

Declare Scope go_scope.
Delimit Scope go_scope with go.
Notation "x <- m ;; k" := (Model.bind m (fun x => k))
  (at level 100, m at next level, right associativity) : go_scope.
Notation "m ;;; k" := (Model.bind m (fun _ => k))
  (at level 100, right associativity) : go_scope.

(** ** The functions of [runner.go] *)

Module Launch.
Import GoStrings GoSlice Env Model.
Local Open Scope go_scope.

Definition newline : string := String (ascii_of_nat 10) EmptyString.

(** [strconv.Itoa] *)
Definition Itoa (z : Z) : string := NilZero.string_of_int (Z.to_int z).

Section WithWorld.
Variable w : World.

(** *** Primitive steps *)

Definition debug (msg : string) : M unit := emit (EDebug msg).

(** A call into a collaborator, recorded with its outcome. *)
Definition call {A} (ev : bool -> Event) (r : result A) : M A :=
  emit (ev (is_ok r)) ;;; lift r.

(** [time.Sleep(100 * time.Millisecond)]: the exit watcher may have
    filled in [ProcessState] meanwhile. *)
Definition sleep : M unit :=
  fun st =>
    let k := S (sleeps st) in
    (Done tt,
     mkSt (trace st)
          (fun c => mkCmd (Process (cmds st c)) (ProcessStateAfter w c k))
          (next_cmd st) (next_chan st) k (buffered st) (heap st)).

(** [make(chan T, cap)] *)
Definition make_chan (capacity : nat) : M chan :=
  fun st =>
    (Done (mkChan (next_chan st) capacity),
     mkSt (trace st) (cmds st) (next_cmd st) (S (next_chan st))
          (sleeps st) (buffered st) (heap st)).

(** [ch <- v]: stored when the buffer has room, handed over when a
    receiver waits, and blocking otherwise. *)
Definition chan_send (ch : chan) (v : error) : M unit :=
  fun st =>
    if decide (length (buffered st (chan_id ch)) < chan_cap ch) then
      (Done tt,
       mkSt (trace st ++ [ESent ch v]) (cmds st) (next_cmd st) (next_chan st)
            (sleeps st)
            (fun i => if decide (i = chan_id ch)
                      then buffered st i ++ [v] else buffered st i)
            (heap st))
    else if ReceiverWaiting w ch then
      (Done tt,
       mkSt (trace st ++ [ESent ch v]) (cmds st) (next_cmd st) (next_chan st)
            (sleeps st) (buffered st) (heap st))
    else (Blocked, st).

(** [os.Environ()]: a new slice holding a copy of the environment. *)
Definition environ : M slice :=
  fun st =>
    let l := Environ w in
    let b := fresh (dom (heap st)) in
    (Done (mkSlice b 0 (length l)),
     mkSt (trace st) (cmds st) (next_cmd st) (next_chan st) (sleeps st)
          (buffered st)
          (<[b := l ++ replicate (spare w (length l)) ""]> (heap st))).

Definition getCleanEnvM (port : string) (env : slice) : M slice :=
  fun st =>
    let '(env', h') := getCleanEnv (spare w) port env (heap st) in
    (Done env',
     mkSt (trace st) (cmds st) (next_cmd st) (next_chan st) (sleeps st)
          (buffered st) h').

Definition new_cmd (c : ExecCmd) : M nat :=
  fun st =>
    let p := next_cmd st in
    (Done p,
     mkSt (trace st)
          (fun i => if decide (i = p) then c else cmds st i)
          (S p) (next_chan st) (sleeps st) (buffered st) (heap st)).

(** [common.ExecuteCommandWithEnv(command, dir, out, err, env)] and
    [common.ExecuteCommand(command, dir, out, err)] ([env] absent). *)
Definition execute (command : list string) (dir : string)
           (env : option (list string)) : M nat :=
  match ExecuteCommand w command dir env with
  | Ok pid =>
      emit (EExec command dir env (Some pid)) ;;;
      new_cmd (mkCmd (Some (mkProcess pid)) None)
  | Err e => emit (EExec command dir env None) ;;; fail e
  end.

Definition ExecuteCommandWithEnv (command : list string) (dir : string)
           (env : slice) : M nat :=
  st <- get_st ;;
  execute command dir (Some (contents (heap st) env)).

(** *** [Kill] and its helpers *)

Definition isStillRunning (st : St) (testRunner : option TestRunner) : bool :=
  match testRunner with
  | None => false
  | Some tr =>
      match Cmd tr with
      | None => false
      | Some c =>
          match ProcessState (cmds st c) with
          | None => true
          | Some ps => negb (Exited ps)
          end
      end
  end.

(** [testRunner.Cmd.Process], a nil dereference being a panic. *)
Definition process (testRunner : option TestRunner) : M OsProcess :=
  match testRunner with
  | None => panic
  | Some tr =>
      match Cmd tr with
      | None => panic
      | Some c =>
          st <- get_st ;;
          match Process (cmds st c) with
          | None => panic
          | Some p => ret p
          end
      end
  end.

Definition killRunner (testRunner : option TestRunner) : M unit :=
  p <- process testRunner ;;
  call (EProcessKill (Pid p))
       (match ProcessKill w (Pid p) with None => Ok tt | Some e => Err e end).

Definition sendProcessKillMessage (testRunner : option TestRunner) : M unit :=
  st <- get_st ;;
  let id := GetUniqueID w (length (trace st)) in
  let message := mkMessage id KillProcessRequest in
  match testRunner with
  | None => panic
  | Some tr =>
      match Connection tr with
      | None => panic
      | Some c => emit (EWrite c message)
      end
  end.

(** The polling goroutine of [Kill], for the [n] checks it completes
    before the timer fires; [true] when it has sent on [exited]. *)
Fixpoint poller (testRunner : option TestRunner) (n : nat) : M bool :=
  match n with
  | 0 => ret false
  | S n' =>
      st <- get_st ;;
      if isStillRunning st testRunner
      then sleep ;;; poller testRunner n'
      else ret true
  end.

Definition forcefulWarning (pid : Z) : string :=
  "Killing runner with PID:" +:+ Itoa pid +:+ " forcefully".

Definition Kill (testRunner : option TestRunner) : M unit :=
  st <- get_st ;;
  if isStillRunning st testRunner then
    match testRunner with
    | None => panic
    | Some tr =>
        match Connection tr with
        | None => panic
        | Some c =>
            defer (emit (EClose c))
              (sendProcessKillMessage testRunner ;;;
               done <- poller testRunner (PluginKillTimeout w) ;;
               if done then ret tt
               else
                 p <- process testRunner ;;
                 emit (EWarning (forcefulWarning (Pid p))) ;;;
                 killRunner testRunner)
        end
    end
  else ret tt.

(** *** Starting a runner *)

(** The steps of [getLanguageJSONFilePath]: locate the descriptor, read
    it, parse it into the [Runner] passed by the caller. *)
Definition loadDescriptor (language : string) : M (string * Runner) :=
  languageJSONFilePath <-
    call (EResolve language) (GetLanguageJSONFilePath w language) ;;
  contents <-
    call (ERead languageJSONFilePath) (ReadFileContents w languageJSONFilePath) ;;
  r <- call EParse (Unmarshal w contents) ;;
  ret (languageJSONFilePath, r).

(** [GetRunnerInfo] decodes into the pointer [runnerInfo] itself
    ([&runnerInfo]), so the JSON value [null] leaves it nil, with a nil
    error: the result is then [None]. *)
Definition GetRunnerInfo (language : string) : M (option Runner) :=
  languageJSONFilePath <-
    call (EResolve language) (GetLanguageJSONFilePath w language) ;;
  contents <-
    call (ERead languageJSONFilePath) (ReadFileContents w languageJSONFilePath) ;;
  if GoJSON.isNull contents then
    emit (EParse true) ;;; ret None
  else
    r <- call EParse (Unmarshal w contents) ;;
    ret (Some r).

Definition getLanguageJSONFilePath (manifest : Manifest)
  : M (string * Runner) :=
  pr <- loadDescriptor (Language manifest) ;;
  ret (Dir w (fst pr), snd pr).

(** The [switch runtime.GOOS] of [getOsSpecificCommand] and of
    [ExecuteInitHookForRunner]. *)
Definition osSpecific (c : Commands) : list string :=
  if String.eqb (GOOS w) "windows" then Windows c
  else if String.eqb (GOOS w) "darwin" then Darwin c
  else Linux c.

Definition getOsSpecificCommand (r : Runner) : list string :=
  osSpecific (Run r).

Definition compatibilityMessage : string :=
  "Compatible runner version to " +:+ CurrentGaugeVersion w
    +:+ " not found. To update plugin, run `gauge --update {pluginName}`.".

Definition exitMessage (err : error) : string :=
  "Runner exited with error: " +:+ err +:+ newline.

(** The body of the goroutine of [waitAndGetErrorMessage]. *)
Definition exitWatcher (errChannel : chan) (cmd : nat) : M unit :=
  match Wait w cmd with
  | Some err =>
      debug ("Runner exited with error: " +:+ err) ;;;
      chan_send errChannel (exitMessage err)
  | None => ret tt
  end.

Definition waitAndGetErrorMessage (errChannel : chan) (cmd : nat) : M unit :=
  emit (EGo (ExitWatcher errChannel cmd)).

Definition startRunner (manifest : Manifest) (port : string)
           (killChannel : chan) : M TestRunner :=
  pr <- getLanguageJSONFilePath manifest ;;
  let runnerDir := fst pr in
  let r := snd pr in
  compatibilityErr <-
    attempt (call ECompat
               (match CheckCompatibility w (CurrentGaugeVersion w)
                                         (GaugeVersionSupport r) with
                | None => Ok tt
                | Some e => Err e
                end)) ;;
  match compatibilityErr with
  | Err _ => fail compatibilityMessage
  | Ok _ =>
      let command := getOsSpecificCommand r in
      env0 <- environ ;;
      env <- getCleanEnvM port env0 ;;
      cmd <- ExecuteCommandWithEnv command runnerDir env ;;
      emit (EGo (KillWatcher killChannel cmd)) ;;;
      errChannel <- make_chan 0 ;;
      waitAndGetErrorMessage errChannel cmd ;;;
      ret (mkTestRunner (Some cmd) None (Some errChannel))
  end.

Definition StartRunnerAndMakeConnection (manifest : Manifest)
           (killChannel : chan) : M TestRunner :=
  let port := match GetPortFromEnvironmentVariable w with
              | Ok p => p
              | Err _ => 0%Z
              end in
  bound <- call (EBind port) (NewGaugeConnectionHandler w port) ;;
  testRunner <- startRunner manifest (Itoa bound) killChannel ;;
  accepted <- attempt (call EAccept (AcceptConnection w)) ;;
  match accepted with
  | Err connectionError =>
      let testRunner := mkTestRunner (Cmd testRunner) None
                                     (ErrorChannel testRunner) in
      debug ("Runner connection error: " +:+ connectionError) ;;;
      killed <- attempt (killRunner (Some testRunner)) ;;
      match killed with
      | Err err => debug ("Error while killing runner: " +:+ err)
      | Ok _ => ret tt
      end ;;;
      fail connectionError
  | Ok runnerConnection =>
      ret (mkTestRunner (Cmd testRunner) (Some runnerConnection)
                        (ErrorChannel testRunner))
  end.

(** [ExecuteInitHookForRunner]: [runnerInfo.Init] on a nil [runnerInfo] is
    a panic; the descriptor is located a second time for its directory,
    the error of that call being dropped. *)
Definition ExecuteInitHookForRunner (language : string) : M unit :=
  check (SetProjectRoot w) ;;;
  runnerInfo <- GetRunnerInfo language ;;
  match runnerInfo with
  | None => panic
  | Some r =>
      let command := osSpecific (Init r) in
      located <-
        attempt (call (EResolve language) (GetLanguageJSONFilePath w language)) ;;
      let languageJSONFilePath :=
        match located with
        | Ok p => p
        | Err _ => ""
        end in
      let runnerDir := Dir w languageJSONFilePath in
      cmd <- execute command runnerDir None ;;
      check (Wait w cmd)
  end.

(** The port asked for: the one of the environment, else [0]. *)
Definition portOf : Z :=
  match GetPortFromEnvironmentVariable w with
  | Ok p => p
  | Err _ => 0%Z
  end.

Definition killed (pid : Z) : bool :=
  match ProcessKill w pid with None => true | Some _ => false end.

(** What is logged after the kill of a failed start. *)
Definition killLogs (pid : Z) : list Event :=
  match ProcessKill w pid with
  | None => []
  | Some err => [EDebug ("Error while killing runner: " +:+ err)]
  end.

(** Running a computation from the initial state. *)
Definition run {A} (m : M A) : Exit A * St := m init_St.

End WithWorld.
End Launch.

(** ** Vocabulary of the statements *)

Module Spec.
Import GoStrings GoSlice Env Model Launch.

(** Two states that differ in the store of arrays only. *)
Definition heap_only (st st' : St) : Prop :=
  trace st' = trace st /\ cmds st' = cmds st /\ next_cmd st' = next_cmd st
  /\ next_chan st' = next_chan st /\ sleeps st' = sleeps st
  /\ buffered st' = buffered st.

(** Whether an event is the execution of a command. *)
Definition is_exec (e : Event) : bool :=
  match e with EExec _ _ _ _ => true | _ => false end.

Definition no_exec (t : list Event) : Prop :=
  forall command dir env pid, ~ In (EExec command dir env pid) t.

Definition quiet (t : list Event) : bool :=
  forallb (fun e => negb (is_exec e)) t.

(** Whether [sub] occurs in [s]. *)
Definition mentions (sub s : string) : bool :=
  match String.index 0 sub s with Some _ => true | None => false end.

(** What [isStillRunning] makes of a [ProcessState]. *)
Definition stillRunning (o : option OsProcessState) : Prop :=
  forall ps, o = Some ps -> Exited ps = false.

Section WithWorld.
Variable w : World.

Definition start_spec (m : Manifest) (port : string) (kc : chan) (st : St)
           (r : Exit TestRunner) (st' : St) : Prop :=
  let lang := Language m in
  match GetLanguageJSONFilePath w lang with
  | Err e => r = Fail e /\ trace st' = trace st ++ [EResolve lang false]
  | Ok p =>
      match ReadFileContents w p with
      | Err e =>
          r = Fail e
          /\ trace st' = trace st ++ [EResolve lang true; ERead p false]
      | Ok c =>
          match Unmarshal w c with
          | Err e =>
              r = Fail e
              /\ trace st' = trace st
                   ++ [EResolve lang true; ERead p true; EParse false]
          | Ok d =>
              let loaded := [EResolve lang true; ERead p true; EParse true] in
              match CheckCompatibility w (CurrentGaugeVersion w)
                                       (GaugeVersionSupport d) with
              | Some _ =>
                  r = Fail (compatibilityMessage w)
                  /\ trace st' = trace st ++ loaded ++ [ECompat false]
              | None =>
                  let command := getOsSpecificCommand w d in
                  let env := cleaned port (Environ w) in
                  match ExecuteCommand w command (Dir w p) (Some env) with
                  | Err e =>
                      r = Fail e
                      /\ trace st' = trace st ++ loaded
                           ++ [ECompat true;
                               EExec command (Dir w p) (Some env) None]
                  | Ok pid =>
                      exists c ch,
                        r = Done (mkTestRunner (Some c) None (Some ch))
                        /\ chan_cap ch = 0
                        /\ cmds st' c = mkCmd (Some (mkProcess pid)) None
                        /\ trace st' = trace st ++ loaded
                             ++ [ECompat true;
                                 EExec command (Dir w p) (Some env) (Some pid);
                                 EGo (KillWatcher kc c);
                                 EGo (ExitWatcher ch c)]
                  end
              end
          end
      end
  end.

(** The ways a call of [StartRunnerAndMakeConnection] can go, by the
    answers of the world, with the result and the trace of each. *)
Inductive start_outcome (m : Manifest) (kc : chan)
  : Exit TestRunner -> list Event -> Prop :=
| StartBindFails e :
    NewGaugeConnectionHandler w (portOf w) = Err e ->
    start_outcome m kc (Fail e) [EBind (portOf w) false]
| StartResolveFails bound e :
    NewGaugeConnectionHandler w (portOf w) = Ok bound ->
    GetLanguageJSONFilePath w (Language m) = Err e ->
    start_outcome m kc (Fail e)
      [EBind (portOf w) true; EResolve (Language m) false]
| StartReadFails bound p e :
    NewGaugeConnectionHandler w (portOf w) = Ok bound ->
    GetLanguageJSONFilePath w (Language m) = Ok p ->
    ReadFileContents w p = Err e ->
    start_outcome m kc (Fail e)
      [EBind (portOf w) true; EResolve (Language m) true; ERead p false]
| StartParseFails bound p c e :
    NewGaugeConnectionHandler w (portOf w) = Ok bound ->
    GetLanguageJSONFilePath w (Language m) = Ok p ->
    ReadFileContents w p = Ok c ->
    Unmarshal w c = Err e ->
    start_outcome m kc (Fail e)
      [EBind (portOf w) true; EResolve (Language m) true; ERead p true;
       EParse false]
| StartIncompatible bound p c d e :
    NewGaugeConnectionHandler w (portOf w) = Ok bound ->
    GetLanguageJSONFilePath w (Language m) = Ok p ->
    ReadFileContents w p = Ok c ->
    Unmarshal w c = Ok d ->
    CheckCompatibility w (CurrentGaugeVersion w) (GaugeVersionSupport d)
    = Some e ->
    start_outcome m kc (Fail (compatibilityMessage w))
      [EBind (portOf w) true; EResolve (Language m) true; ERead p true;
       EParse true; ECompat false]
| StartSpawnFails bound p c d e :
    NewGaugeConnectionHandler w (portOf w) = Ok bound ->
    GetLanguageJSONFilePath w (Language m) = Ok p ->
    ReadFileContents w p = Ok c ->
    Unmarshal w c = Ok d ->
    CheckCompatibility w (CurrentGaugeVersion w) (GaugeVersionSupport d)
    = None ->
    ExecuteCommand w (getOsSpecificCommand w d) (Dir w p)
                   (Some (cleaned (Itoa bound) (Environ w))) = Err e ->
    start_outcome m kc (Fail e)
      [EBind (portOf w) true; EResolve (Language m) true; ERead p true;
       EParse true; ECompat true;
       EExec (getOsSpecificCommand w d) (Dir w p)
             (Some (cleaned (Itoa bound) (Environ w))) None]
| StartHandshakeFails bound p c d pid cmd ch ce :
    NewGaugeConnectionHandler w (portOf w) = Ok bound ->
    GetLanguageJSONFilePath w (Language m) = Ok p ->
    ReadFileContents w p = Ok c ->
    Unmarshal w c = Ok d ->
    CheckCompatibility w (CurrentGaugeVersion w) (GaugeVersionSupport d)
    = None ->
    ExecuteCommand w (getOsSpecificCommand w d) (Dir w p)
                   (Some (cleaned (Itoa bound) (Environ w))) = Ok pid ->
    AcceptConnection w = Err ce ->
    start_outcome m kc (Fail ce)
      ([EBind (portOf w) true; EResolve (Language m) true; ERead p true;
        EParse true; ECompat true;
        EExec (getOsSpecificCommand w d) (Dir w p)
              (Some (cleaned (Itoa bound) (Environ w))) (Some pid);
        EGo (KillWatcher kc cmd); EGo (ExitWatcher ch cmd);
        EAccept false;
        EDebug ("Runner connection error: " +:+ ce);
        EProcessKill pid (killed w pid)] ++ killLogs w pid)
| StartConnected bound p c d pid cmd ch conn :
    NewGaugeConnectionHandler w (portOf w) = Ok bound ->
    GetLanguageJSONFilePath w (Language m) = Ok p ->
    ReadFileContents w p = Ok c ->
    Unmarshal w c = Ok d ->
    CheckCompatibility w (CurrentGaugeVersion w) (GaugeVersionSupport d)
    = None ->
    ExecuteCommand w (getOsSpecificCommand w d) (Dir w p)
                   (Some (cleaned (Itoa bound) (Environ w))) = Ok pid ->
    AcceptConnection w = Ok conn ->
    chan_cap ch = 0 ->
    start_outcome m kc
      (Done (mkTestRunner (Some cmd) (Some conn) (Some ch)))
      [EBind (portOf w) true; EResolve (Language m) true; ERead p true;
       EParse true; ECompat true;
       EExec (getOsSpecificCommand w d) (Dir w p)
             (Some (cleaned (Itoa bound) (Environ w))) (Some pid);
       EGo (KillWatcher kc cmd); EGo (ExitWatcher ch cmd);
       EAccept true].

End WithWorld.

(** *** A sample world: a ruby runner on linux *)

Definition rubyRunner : Runner :=
  mkRunner "ruby" "ruby" "0.1.0" "Ruby support for Gauge"
           (mkCommands ["ruby.exe"; "run.rb"] ["ruby"; "run.rb"] ["ruby"; "run.rb"])
           (mkCommands ["ruby.exe"; "init.rb"] ["ruby"; "init.rb"] ["ruby"; "init.rb"])
           "lib" (mkVersionSupport "0.5.0" "2.0.0").

Definition rubyWorld (compat : option error) (accept : result Conn)
           (kill : option error) : World :=
  {| GOOS := "linux";
     CurrentGaugeVersion := "1.0.0";
     Environ := ["PATH=/usr/bin"; "GAUGE_INTERNAL_PORT=9999"; "HOME=/root"];
     spare := fun _ => 0;
     SetProjectRoot := None;
     GetPortFromEnvironmentVariable := Err "GAUGE_API_PORT is not set";
     NewGaugeConnectionHandler := fun p => Ok (if Z.eqb p 0 then 7777 else p)%Z;
     GetLanguageJSONFilePath := fun l => Ok ("/plugins/" +:+ l +:+ "/" +:+ l +:+ ".json");
     ReadFileContents := fun _ => Ok "{}";
     Unmarshal := fun _ => Ok rubyRunner;
     Dir := fun _ => "/plugins/ruby";
     CheckCompatibility := fun _ _ => compat;
     ExecuteCommand := fun _ _ _ => Ok 4242%Z;
     AcceptConnection := accept;
     ProcessKill := fun _ => kill;
     Wait := fun _ => Some "exit status 1";
     GetUniqueID := fun n => Z.of_nat n;
     PluginKillTimeout := 3;
     ProcessStateAfter := fun _ _ => None;
     ReceiverWaiting := fun _ => false |}.

Definition rubyManifest : Manifest := mkManifest "ruby".

Definition killChan : chan := mkChan 100 0.

(** A runner handle on command [0] with connection [1], and two states
    of that command: started and not yet waited for, and exited. *)
Definition rubyHandle : TestRunner :=
  mkTestRunner (Some 0) (Some 1) (Some (mkChan 0 0)).

Definition stateOf (ps : option OsProcessState) : St :=
  mkSt [] (fun _ => mkCmd (Some (mkProcess 4242)) ps) 1 1 0 (fun _ => []) ∅.

Definition liveSt : St := stateOf None.

Definition exitedSt : St := stateOf (Some (mkProcessState true)).

(** *** Sample environments *)

(** An inherited environment with one entry of the port variable, in an
    array without room to spare. *)
Definition inheritedStore : store :=
  {[ 0 := ["PATH=/usr/bin"; "GAUGE_INTERNAL_PORT=9999"; "HOME=/root"] ]}.

Definition inheritedEnv : slice := mkSlice 0 0 3.

(** One with two entries of the port variable and a spare slot. *)
Definition doubledStore : store :=
  {[ 0 := ["GAUGE_INTERNAL_PORT=1"; "A=b"; " GAUGE_INTERNAL_PORT =2"; "C=d";
           ""] ]}.

Definition doubledEnv : slice := mkSlice 0 0 4.

(** One without the port variable, in an array with a spare slot. *)
Definition roomyStore : store := {[ 0 := ["A=b"; "C=d"; ""] ]}.

Definition roomyEnv : slice := mkSlice 0 0 2.

(** *** Variants of a world *)

(** The world with other answers of the exit watcher. *)
Definition withProcessStates (w : World)
           (after : nat -> nat -> option OsProcessState) : World :=
  {| GOOS := GOOS w;
     CurrentGaugeVersion := CurrentGaugeVersion w;
     Environ := Environ w;
     spare := spare w;
     SetProjectRoot := SetProjectRoot w;
     GetPortFromEnvironmentVariable := GetPortFromEnvironmentVariable w;
     NewGaugeConnectionHandler := NewGaugeConnectionHandler w;
     GetLanguageJSONFilePath := GetLanguageJSONFilePath w;
     ReadFileContents := ReadFileContents w;
     Unmarshal := Unmarshal w;
     Dir := Dir w;
     CheckCompatibility := CheckCompatibility w;
     ExecuteCommand := ExecuteCommand w;
     AcceptConnection := AcceptConnection w;
     ProcessKill := ProcessKill w;
     Wait := Wait w;
     GetUniqueID := GetUniqueID w;
     PluginKillTimeout := PluginKillTimeout w;
     ProcessStateAfter := after;
     ReceiverWaiting := ReceiverWaiting w |}.

(** The world with another answer to the execution of commands. *)
Definition withExecute (w : World)
           (exec : list string -> string -> option (list string) -> result Z)
  : World :=
  {| GOOS := GOOS w;
     CurrentGaugeVersion := CurrentGaugeVersion w;
     Environ := Environ w;
     spare := spare w;
     SetProjectRoot := SetProjectRoot w;
     GetPortFromEnvironmentVariable := GetPortFromEnvironmentVariable w;
     NewGaugeConnectionHandler := NewGaugeConnectionHandler w;
     GetLanguageJSONFilePath := GetLanguageJSONFilePath w;
     ReadFileContents := ReadFileContents w;
     Unmarshal := Unmarshal w;
     Dir := Dir w;
     CheckCompatibility := CheckCompatibility w;
     ExecuteCommand := exec;
     AcceptConnection := AcceptConnection w;
     ProcessKill := ProcessKill w;
     Wait := Wait w;
     GetUniqueID := GetUniqueID w;
     PluginKillTimeout := PluginKillTimeout w;
     ProcessStateAfter := ProcessStateAfter w;
     ReceiverWaiting := ReceiverWaiting w |}.

(** A process seen exited from the [j]-th sleep on. *)
Definition exitingAfter (j : nat) : nat -> nat -> option OsProcessState :=
  fun _ k => if Nat.leb j k then Some (mkProcessState true) else None.

(** The ruby world with a runner that exits by itself after two sleeps,
    and the one where the runner command cannot be started. *)
Definition exitingWorld : World :=
  withProcessStates (rubyWorld None (Ok 1) None) (exitingAfter 2).

Definition brokenWorld : World :=
  withExecute (rubyWorld None (Ok 1) None)
              (fun _ _ _ => Err "exec: ruby: not found").

(** A runner whose process was ended by a signal and has been waited for:
    its state, and the ruby world in which it stays so and in which a
    further kill is refused. *)
Definition signalledSt : St := stateOf (Some (mkProcessState false)).

Definition signalledWorld : World :=
  withProcessStates
    (rubyWorld None (Ok 1) (Some "os: process already finished"))
    (fun _ _ => Some (mkProcessState false)).

(** The world with other file contents. *)
Definition withContents (w : World) (read : string -> result string) : World :=
  {| GOOS := GOOS w;
     CurrentGaugeVersion := CurrentGaugeVersion w;
     Environ := Environ w;
     spare := spare w;
     SetProjectRoot := SetProjectRoot w;
     GetPortFromEnvironmentVariable := GetPortFromEnvironmentVariable w;
     NewGaugeConnectionHandler := NewGaugeConnectionHandler w;
     GetLanguageJSONFilePath := GetLanguageJSONFilePath w;
     ReadFileContents := read;
     Unmarshal := Unmarshal w;
     Dir := Dir w;
     CheckCompatibility := CheckCompatibility w;
     ExecuteCommand := ExecuteCommand w;
     AcceptConnection := AcceptConnection w;
     ProcessKill := ProcessKill w;
     Wait := Wait w;
     GetUniqueID := GetUniqueID w;
     PluginKillTimeout := PluginKillTimeout w;
     ProcessStateAfter := ProcessStateAfter w;
     ReceiverWaiting := ReceiverWaiting w |}.

(** The ruby world whose descriptor file holds the JSON value [null]. *)
Definition nullWorld : World :=
  withContents (rubyWorld None (Ok 1) None) (fun _ => Ok " null ").

End Spec.

(** ** [reporter/consoleFormatter.go]: indentation *)

Module Reporter.
Import GoStrings.

(** The loop of [spaces]: [k] rounds of [text += " "]. *)
Fixpoint spacesLoop (k : nat) (text : string) : string :=
  match k with
  | 0 => text
  | S k' => spacesLoop k' (text +:+ " ")
  end.

(** [for i := 0; i < numOfSpaces; i++] runs [numOfSpaces] times, and not at
    all for a negative number. *)
Definition spaces (numOfSpaces : Z) : string :=
  spacesLoop (Z.to_nat numOfSpaces) "".

Definition indent (text : string) (indentation : Z) : string :=
  spaces indentation +:+ TrimSpace text.

End Reporter.

(** ** [plugin/install/check.go]: waiting to print *)

Module Install.

(** What the [select] of [waitToPrint] receives, in the order it receives
    it: a value on [printChan] or a message on [messageChan]. *)
Inductive Signal :=
| PrintRequested
| MessageArrived (message : string).

Inductive Effect :=
| Info (msg : string)
| WgDone.

(** [waitToPrint]; [None] when the signals run out and the [select] waits
    for ever. *)
Fixpoint waitToPrint (signals : list Signal) (message : string)
  : option (list Effect) :=
  match signals with
  | [] => None
  | PrintRequested :: _ =>
      Some ((if String.eqb message "" then [] else [Info message]) ++ [WgDone])
  | MessageArrived m :: rest => waitToPrint rest m
  end.

Definition updatesAvailable : string :=
  "Updates are available. Run gauge --check-updates for more info.".

(** The signals [printUpdateInfo] can see before the print request: the one
    message of its goroutine when updates were found in time. *)
Definition updateSignals (updatesFound : bool) : list Signal :=
  if updatesFound then [MessageArrived updatesAvailable] else [].

(** [printUpdateInfo], followed by the [u.print <- true] of
    [PrintUpdateBuffer]. *)
Definition printUpdateInfo (updatesFound : bool) : option (list Effect) :=
  waitToPrint (updateSignals updatesFound ++ [PrintRequested]) "".

End Install.

(** * Properties *)

(** ** Strings and entries *)

Example TrimSpace_ex1 : GoStrings.TrimSpace "  a b	" = "a b".
Proof. vm_compute. reflexivity. Qed.

Example TrimSpace_ex2 :
  GoStrings.TrimSpace (GoStrings.bytes [226;128;168;65;194;160;32]) = "A".
Proof. vm_compute. reflexivity. Qed.

Example isPortEntry_ex1 : Env.isPortEntry " GAUGE_INTERNAL_PORT =9999" = true.
Proof. vm_compute. reflexivity. Qed.

Example isPortEntry_ex2 : Env.isPortEntry "GAUGE_PORT=9999" = false.
Proof. vm_compute. reflexivity. Qed.

Example entryValue_ex : Env.entryValue "GAUGE_INTERNAL_PORT=7777" = "7777".
Proof. vm_compute. reflexivity. Qed.

Example Itoa_ex : (Launch.Itoa 7777, Launch.Itoa 0, Launch.Itoa (-12)) = ("7777", "0", "-12").
Proof. vm_compute. reflexivity. Qed.

Example mentions_ex :
  Spec.mentions "gauge --update"
    (Launch.compatibilityMessage (Spec.rubyWorld None (Model.Ok 1) None)) = true.
Proof. vm_compute. reflexivity. Qed.

Section EntryFacts.
Import GoStrings Env.

Lemma Split_nonempty sep s : Split sep s <> [].
Proof.
  destruct s as [|a r]; simpl; [discriminate|].
  destruct (Ascii.eqb a sep); [discriminate|].
  destruct (Split sep r); discriminate.
Qed.

Lemma isPortEntry_portEntry port : isPortEntry (portEntry port) = true.
Proof. reflexivity. Qed.

Lemma substring_all s n : String.length s <= n -> String.substring 0 n s = s.
Proof.
  revert n; induction s as [|a r IH]; intros [|n] Hn; simpl in *;
    try reflexivity; try (exfalso; lia).
  f_equal. apply IH. lia.
Qed.

Lemma entryValue_portEntry port : entryValue (portEntry port) = port.
Proof.
  unfold entryValue, portEntry, GaugeInternalPortEnvName. simpl.
  change ("" +:+ port) with port.
  apply substring_all. lia.
Qed.

Lemma rewriteEntry_port port k :
  isPortEntry k = true -> rewriteEntry port k = portEntry port.
Proof. unfold rewriteEntry. now intros ->. Qed.

Lemma rewriteEntry_other port k :
  isPortEntry k = false -> rewriteEntry port k = k.
Proof. unfold rewriteEntry. now intros ->. Qed.

Lemma isPortEntry_rewriteEntry port k :
  isPortEntry (rewriteEntry port k) = isPortEntry k.
Proof.
  unfold rewriteEntry. destruct (isPortEntry k) eqn:E; [|exact E].
  apply isPortEntry_portEntry.
Qed.

Lemma filter_rewritten port l :
  List.filter isPortEntry (List.map (rewriteEntry port) l)
  = List.map (fun _ => portEntry port) (List.filter isPortEntry l).
Proof.
  induction l as [|k l IH]; simpl; [reflexivity|].
  rewrite isPortEntry_rewriteEntry.
  destruct (isPortEntry k) eqn:E; simpl; rewrite IH; [|reflexivity].
  now rewrite (rewriteEntry_port _ _ E).
Qed.

Lemma existsb_filter_nil (l : list string) :
  List.existsb isPortEntry l = false <-> List.filter isPortEntry l = [].
Proof.
  induction l as [|k l IH]; simpl; [tauto|].
  destruct (isPortEntry k); simpl; [split; discriminate | exact IH].
Qed.

Lemma filter_cleaned port l :
  List.filter isPortEntry (cleaned port l)
  = match List.filter isPortEntry l with
    | [] => [portEntry port]
    | f => List.map (fun _ => portEntry port) f
    end.
Proof.
  unfold cleaned. rewrite List.filter_app, filter_rewritten.
  destruct (List.existsb isPortEntry l) eqn:E.
  - simpl. rewrite List.app_nil_r.
    destruct (List.filter isPortEntry l) eqn:F; [|reflexivity].
    apply existsb_filter_nil in F. congruence.
  - apply existsb_filter_nil in E. rewrite E. reflexivity.
Qed.

End EntryFacts.

(** ** The loop of [getCleanEnv] on the backing array *)

Section SliceFacts.
Import GoStrings GoSlice Env.

Lemma take_S_drop (a : list string) s n k :
  a !! s = Some k -> take (S n) (drop s a) = k :: take n (drop (S s) a).
Proof. intros Hk. now rewrite (drop_S _ _ _ Hk). Qed.

Lemma rangeLoop_spec port env n :
  forall i isPresent (h : store) a,
    h !! base env = Some a ->
    off env + i + n <= length a ->
    i + n <= len env ->
    rangeLoop port env n i isPresent h
    = (isPresent || List.existsb isPortEntry (take n (drop (off env + i) a)),
       <[base env := take (off env + i) a
                     ++ List.map (rewriteEntry port) (take n (drop (off env + i) a))
                     ++ drop (off env + i + n) a]> h).
Proof.
  induction n as [|n IH]; intros i isPresent h a Ha Hlen Hi.
  - simpl. rewrite orb_false_r, Nat.add_0_r, take_drop.
    now rewrite (insert_id _ _ _ Ha).
  - assert (Hlt : off env + i < length a) by lia.
    destruct (lookup_lt_is_Some_2 _ _ Hlt) as [k Hk].
    cbn [rangeLoop]. unfold get.
    destruct (decide (i < len env)) as [_|]; [|lia].
    rewrite Ha, Hk, (take_S_drop _ _ _ _ Hk). cbn [List.existsb List.map].
    replace (off env + i + S n) with (off env + S i + n) by lia.
    replace (S (off env + i)) with (off env + S i) by lia.
    destruct (isPortEntry k) eqn:E.
    + unfold set. rewrite Ha.
      rewrite (IH (S i) true _ (<[off env + i := portEntry port]> a));
        [ | apply lookup_insert_eq | rewrite length_insert; lia | lia ].
      rewrite insert_insert_eq, orb_true_r. f_equal. f_equal.
      rewrite (rewriteEntry_port _ _ E).
      rewrite !drop_insert_lt by lia.
      replace (off env + S i) with (S (off env + i)) by lia.
      rewrite (take_S_r (<[off env + i := portEntry port]> a) _ (portEntry port))
        by (apply list_lookup_insert_eq; lia).
      rewrite take_insert_ge by lia.
      now rewrite <- app_assoc.
    + rewrite (IH (S i) isPresent h a Ha) by lia.
      rewrite orb_false_l. f_equal. f_equal.
      rewrite (rewriteEntry_other _ _ E).
      replace (off env + S i) with (S (off env + i)) by lia.
      rewrite (take_S_r a _ k Hk).
      now rewrite <- app_assoc.
Qed.

Lemma view_of_rewritten (a m : list string) o n :
  o + n <= length a -> length m = n ->
  take n (drop o (take o a ++ m ++ drop (o + n) a)) = m.
Proof.
  intros Ha Hm.
  rewrite drop_app_length' by (rewrite length_take; lia).
  now rewrite take_app_length' by lia.
Qed.

Lemma length_rewritten (a m : list string) o n :
  o + n <= length a -> length m = n ->
  length (take o a ++ m ++ drop (o + n) a) = length a.
Proof.
  intros Ha Hm. rewrite !length_app, length_take, length_drop. lia.
Qed.

Lemma contents_length h env : wf h env -> length (contents h env) = len env.
Proof.
  intros (a & Ha & Hle). unfold contents. rewrite Ha.
  rewrite length_take, length_drop. lia.
Qed.

(** The effect of [getCleanEnv] on the store: the slice it returns, what
    the caller's slice shows afterwards, and the arrays left alone. *)
Lemma getCleanEnv_spec spare port env (h : store) env' h' :
  wf h env ->
  getCleanEnv spare port env h = (env', h') ->
  contents h' env' = cleaned port (contents h env)
  /\ contents h' env = List.map (rewriteEntry port) (contents h env)
  /\ wf h' env'
  /\ (forall b, b <> base env -> is_Some (h !! b) -> h' !! b = h !! b)
  /\ (List.existsb isPortEntry (contents h env) = true -> env' = env).
Proof.
  intros (a & Ha & Hle) Hrun. unfold getCleanEnv in Hrun.
  rewrite (rangeLoop_spec port env (len env) 0 false h a Ha) in Hrun by lia.
  rewrite Nat.add_0_r, orb_false_l in Hrun.
  set (l := take (len env) (drop (off env) a)) in *.
  set (m := List.map (rewriteEntry port) l) in *.
  set (a1 := take (off env) a ++ m ++ drop (off env + len env) a) in *.
  assert (Hl : length l = len env)
    by (unfold l; rewrite length_take, length_drop; lia).
  assert (Hm : length m = len env) by (unfold m; now rewrite length_map).
  assert (Hview : take (len env) (drop (off env) a1) = m)
    by (now apply view_of_rewritten).
  assert (Hlen1 : length a1 = length a) by (now apply length_rewritten).
  assert (Hc : contents h env = l) by (unfold contents; now rewrite Ha).
  rewrite Hc. unfold cleaned. fold m.
  destruct (List.existsb isPortEntry l) eqn:E; simpl in Hrun.
  - inversion Hrun; subst env' h'; clear Hrun.
    unfold contents, wf. rewrite lookup_insert_eq, Hview, app_nil_r.
    repeat split; [ exists a1; split; [reflexivity | lia] | ].
    intros b Hb _. now rewrite lookup_insert_ne.
  - unfold append in Hrun. rewrite lookup_insert_eq in Hrun.
    destruct (decide (off env + len env < length a1)) as [Hroom|Hfull];
      inversion Hrun; subst env' h'; clear Hrun.
    + unfold contents, wf; simpl. rewrite insert_insert_eq, lookup_insert_eq.
      rewrite drop_insert_ge by lia.
      replace (off env + len env - off env) with (len env) by lia.
      assert (Hd : drop (off env) a1 = m ++ drop (off env + len env) a).
      { unfold a1. now rewrite drop_app_length' by (rewrite length_take; lia). }
      rewrite Hd.
      assert (Hi : <[len env := portEntry port]> (m ++ drop (off env + len env) a)
                   = m ++ <[0 := portEntry port]> (drop (off env + len env) a)).
      { rewrite <- Hm at 1. rewrite <- (Nat.add_0_r (length m)).
        apply insert_app_r. }
      rewrite Hi.
      destruct (drop (off env + len env) a) as [|x rest] eqn:Hrest.
      { exfalso. apply (f_equal length) in Hrest.
        rewrite length_drop in Hrest. simpl in Hrest. lia. }
      simpl.
      replace (S (len env)) with (length m + 1) by lia.
      rewrite take_app_add, <- Hm, take_app_length. simpl.
      repeat split.
      * exists (<[off env + length m := portEntry port]> a1).
        split; [reflexivity | rewrite length_insert; lia].
      * intros b Hb _. now rewrite lookup_insert_ne.
      * discriminate.
    + set (b := fresh (dom (<[base env := a1]> h))) in *.
      assert (Hfresh : b ∉ dom (<[base env := a1]> h)) by apply is_fresh.
      assert (Hb : b <> base env).
      { intros ->. apply Hfresh. apply elem_of_dom. rewrite lookup_insert_eq. eauto. }
      unfold contents, wf; simpl. rewrite lookup_insert_eq.
      rewrite lookup_insert_ne by done. rewrite lookup_insert_eq.
      rewrite Hview. rewrite drop_0.
      replace (S (len env)) with (length m + 1) by lia.
      rewrite take_app_add. simpl. rewrite take_0.
      repeat split.
      * eexists; split; [reflexivity|]. rewrite length_app. simpl. lia.
      * intros c Hc' Hsome.
        rewrite lookup_insert_ne.
        { now rewrite lookup_insert_ne. }
        intros <-. apply Hfresh. apply elem_of_dom.
        now rewrite lookup_insert_ne.
      * discriminate.
Qed.

End SliceFacts.

(** ** [getCleanEnv]: the child environment *)

Section CleanEnv.
Import GoStrings GoSlice Env.

Lemma lookup_map_list {A B} (f : A -> B) (l : list A) i :
  List.map f l !! i = f <$> (l !! i).
Proof.
  revert i; induction l as [|x l IH]; intros [|i]; simpl; auto.
Qed.

Lemma map_rewrite_absent port l :
  List.existsb isPortEntry l = false -> List.map (rewriteEntry port) l = l.
Proof.
  induction l as [|k l IH]; simpl; [reflexivity|].
  intros H. apply orb_false_iff in H as [Hk Hl].
  now rewrite (rewriteEntry_other _ _ Hk), IH.
Qed.

Lemma filter_other_rewritten port l :
  List.filter otherEntry (List.map (rewriteEntry port) l)
  = List.filter otherEntry l.
Proof.
  assert (Hk : forall k, otherEntry (rewriteEntry port k) = otherEntry k)
    by (intros k; unfold otherEntry; now rewrite isPortEntry_rewriteEntry).
  induction l as [|k l IH]; simpl; [reflexivity|].
  rewrite Hk, IH.
  destruct (otherEntry k) eqn:E; [|reflexivity].
  apply negb_true_iff in E. now rewrite (rewriteEntry_other _ _ E).
Qed.

Lemma childEnv_cleaned spare port env (h : store) :
  wf h env -> childEnv spare port env h = cleaned port (contents h env).
Proof.
  intros Hwf. unfold childEnv.
  destruct (getCleanEnv spare port env h) as [env' h'] eqn:E.
  now destruct (getCleanEnv_spec _ _ _ _ _ _ Hwf E) as (H & _).
Qed.

Lemma callerEnv_rewritten spare port env (h : store) :
  wf h env ->
  callerEnv spare port env h = List.map (rewriteEntry port) (contents h env).
Proof.
  intros Hwf. unfold callerEnv.
  destruct (getCleanEnv spare port env h) as [env' h'] eqn:E.
  now destruct (getCleanEnv_spec _ _ _ _ _ _ Hwf E) as (_ & H & _).
Qed.

(** C5.  For every inherited environment (a well-formed slice [env]) and
    every port, the environment [getCleanEnv] returns is the inherited
    one with each entry of the port variable rewritten to
    [GAUGE_INTERNAL_PORT=port] and every other entry kept; its length is
    unchanged when the variable is present, and exactly one entry is
    appended when it is absent.  In particular an environment with one
    entry for the variable (such as [GAUGE_INTERNAL_PORT=9999]) yields
    exactly one entry for it, whose value is the port. *)
Theorem getCleanEnv_rewrites_or_appends spare port env (h : store) :
  wf h env ->
  let l := contents h env in
  let child := childEnv spare port env h in
  child = List.map (rewriteEntry port) l
            ++ (if List.existsb isPortEntry l then [] else [portEntry port])
  /\ (forall k, isPortEntry k = true ->
                rewriteEntry port k = portEntry port
                /\ entryValue (rewriteEntry port k) = port)
  /\ (forall k, isPortEntry k = false -> rewriteEntry port k = k)
  /\ (List.existsb isPortEntry l = true -> length child = length l)
  /\ (List.existsb isPortEntry l = false -> child = l ++ [portEntry port])
  /\ (length (List.filter isPortEntry l) <= 1 ->
      List.filter isPortEntry child = [portEntry port]).
Proof.
  intros Hwf l child.
  assert (Hchild : child = cleaned port l) by (now apply childEnv_cleaned).
  split; [exact Hchild|].
  split.
  { intros k Hk. rewrite (rewriteEntry_port _ _ Hk).
    split; [reflexivity | apply entryValue_portEntry]. }
  split; [apply rewriteEntry_other|].
  split.
  { intros E. rewrite Hchild. unfold cleaned. rewrite E, app_nil_r.
    apply length_map. }
  split.
  { intros E. rewrite Hchild. unfold cleaned.
    now rewrite E, (map_rewrite_absent _ _ E). }
  intros Hone. rewrite Hchild, filter_cleaned.
  destruct (List.filter isPortEntry l) as [|x [|y r]]; simpl in *;
    [reflexivity | reflexivity | lia].
Qed.

(** C10.  [getCleanEnv] keeps every entry of another variable at its
    index with its value, so in the same relative order, both in the
    slice it returns and in the slice the caller passed; every entry of
    the port variable is overwritten at its index in the caller's
    backing array; and when the variable is present (once or several
    times) the very slice that was passed is returned, nothing being
    appended. *)
Theorem getCleanEnv_frame spare port env (h : store) :
  wf h env ->
  let l := contents h env in
  let child := childEnv spare port env h in
  let seen := callerEnv spare port env h in
  (forall i k, l !! i = Some k -> isPortEntry k = false ->
               child !! i = Some k /\ seen !! i = Some k)
  /\ List.filter otherEntry child = List.filter otherEntry l
  /\ (forall i k, l !! i = Some k -> isPortEntry k = true ->
                  child !! i = Some (portEntry port)
                  /\ seen !! i = Some (portEntry port))
  /\ length seen = length l
  /\ (1 <= length (List.filter isPortEntry l) ->
      fst (getCleanEnv spare port env h) = env
      /\ child = seen
      /\ length (List.filter isPortEntry child)
         = length (List.filter isPortEntry l)).
Proof.
  intros Hwf l child seen.
  assert (Hchild : child = cleaned port l) by (now apply childEnv_cleaned).
  assert (Hseen : seen = List.map (rewriteEntry port) l)
    by (now apply callerEnv_rewritten).
  assert (Hat : forall i k, l !! i = Some k ->
                  child !! i = Some (rewriteEntry port k)
                  /\ seen !! i = Some (rewriteEntry port k)).
  { intros i k Hk. rewrite Hchild, Hseen. unfold cleaned.
    assert (Hm : List.map (rewriteEntry port) l !! i = Some (rewriteEntry port k))
      by (now rewrite lookup_map_list, Hk).
    split; [|exact Hm].
    now rewrite (lookup_app_l_Some _ _ _ _ Hm). }
  split.
  { intros i k Hk E. destruct (Hat i k Hk) as [H1 H2].
    now rewrite (rewriteEntry_other port k E) in H1, H2. }
  split.
  { rewrite Hchild. unfold cleaned.
    rewrite List.filter_app, filter_other_rewritten.
    destruct (List.existsb isPortEntry l); [apply app_nil_r|].
    cbn [List.filter]. unfold otherEntry at 2.
    rewrite isPortEntry_portEntry. apply app_nil_r. }
  split.
  { intros i k Hk E. destruct (Hat i k Hk) as [H1 H2].
    now rewrite (rewriteEntry_port port k E) in H1, H2. }
  split; [rewrite Hseen; apply length_map|].
  intros Hsome.
  assert (E : List.existsb isPortEntry l = true).
  { destruct (List.existsb isPortEntry l) eqn:E; [reflexivity|].
    apply existsb_filter_nil in E. rewrite E in Hsome. simpl in Hsome. lia. }
  split.
  { destruct (getCleanEnv spare port env h) as [env' h'] eqn:R.
    destruct (getCleanEnv_spec _ _ _ _ _ _ Hwf R) as (_ & _ & _ & _ & H).
    simpl. now apply H. }
  split.
  { rewrite Hchild, Hseen. unfold cleaned. now rewrite E, app_nil_r. }
  rewrite Hchild, filter_cleaned.
  destruct (List.filter isPortEntry l); simpl in *; [lia|].
  now rewrite length_map.
Qed.

End CleanEnv.

(** Symbolic execution of a computation of [M]: the combinators are
    unfolded and the projections of the resulting states are reduced. *)
Ltac go_run_in H :=
  cbv beta iota zeta delta
      [Model.bind Model.emit Model.ret Model.lift Model.fail Launch.call
       Model.attempt Model.is_ok fst snd Model.check Model.get_st
       Model.panic Launch.debug Launch.waitAndGetErrorMessage] in H;
  cbn [Model.trace Model.cmds Model.next_cmd Model.next_chan
       Model.sleeps Model.buffered Model.heap Model.Cmd Model.Connection
       Model.ErrorChannel Model.Process Model.ProcessState] in H.

Ltac go_run :=
  cbv beta iota zeta delta
      [Model.bind Model.emit Model.ret Model.lift Model.fail Launch.call
       Model.attempt Model.is_ok fst snd Model.check Model.get_st
       Model.panic Launch.debug Launch.waitAndGetErrorMessage];
  cbn [Model.trace Model.cmds Model.next_cmd Model.next_chan
       Model.sleeps Model.buffered Model.heap Model.Cmd Model.Connection
       Model.ErrorChannel Model.Process Model.ProcessState].

(** ** Running the start sequence *)

Section StartFacts.
Import GoStrings GoSlice Env Model Launch Spec.
Local Open Scope go_scope.

Variable w : World.

Lemma environ_run st :
  exists env st',
    environ w st = (Done env, st') /\ heap_only st st'
    /\ wf (heap st') env /\ contents (heap st') env = Environ w.
Proof.
  eexists _, _. split; [reflexivity|].
  split; [repeat split|].
  unfold wf, contents; simpl. rewrite lookup_insert_eq. split.
  - eexists; split; [reflexivity|]. rewrite length_app. lia.
  - rewrite drop_0. apply take_app_length.
Qed.

Lemma getCleanEnvM_run port env st :
  wf (heap st) env ->
  exists env' st',
    getCleanEnvM w port env st = (Done env', st') /\ heap_only st st'
    /\ contents (heap st') env' = cleaned port (contents (heap st) env).
Proof.
  intros Hwf. unfold getCleanEnvM.
  destruct (getCleanEnv (spare w) port env (heap st)) as [env' h'] eqn:E.
  destruct (getCleanEnv_spec _ _ _ _ _ _ Hwf E) as (Hc & _).
  eexists _, _. split; [reflexivity|]. split; [repeat split | exact Hc].
Qed.

(** From [os.Environ()] to the spawn: the command is executed with the
    cleaned environment. *)
Lemma spawn_run {A} port command dir (k : nat -> M A) st :
  exists st0,
    heap_only st st0
    /\ (env0 <- environ w ;;
        env <- getCleanEnvM w port env0 ;;
        cmd <- ExecuteCommandWithEnv w command dir env ;;
        k cmd) st
       = (cmd <- execute w command dir (Some (cleaned port (Environ w))) ;;
          k cmd) st0.
Proof.
  destruct (environ_run st) as (env0 & st1 & R1 & H1 & Hwf & Hc).
  destruct (getCleanEnvM_run port env0 st1 Hwf) as (env & st2 & R2 & H2 & Hc2).
  exists st2. split.
  - unfold heap_only in *. intuition congruence.
  - unfold bind at 1. rewrite R1. unfold bind at 1. rewrite R2.
    unfold ExecuteCommandWithEnv, bind, get_st. now rewrite Hc2, Hc.
Qed.

Lemma startRunner_run m port kc st :
  start_spec w m port kc st (fst (startRunner w m port kc st))
             (snd (startRunner w m port kc st)).
Proof.
  unfold start_spec, startRunner, getLanguageJSONFilePath, loadDescriptor.
  destruct (GetLanguageJSONFilePath w (Language m)) as [p|e]; go_run;
    [|split; reflexivity].
  destruct (ReadFileContents w p) as [c|e]; go_run;
    [|rewrite <- app_assoc; split; reflexivity].
  destruct (Unmarshal w c) as [d|e]; go_run;
    [|rewrite <- !app_assoc; split; reflexivity].
  destruct (CheckCompatibility w (CurrentGaugeVersion w) (GaugeVersionSupport d));
    go_run; [rewrite <- !app_assoc; split; reflexivity|].
  match goal with
  | |- context [environ w ?s] =>
      destruct (spawn_run port (getOsSpecificCommand w d) (Dir w p)
                  (fun cmd =>
                     emit (EGo (KillWatcher kc cmd)) ;;;
                     errChannel <- make_chan 0 ;;
                     waitAndGetErrorMessage errChannel cmd ;;;
                     ret (mkTestRunner (Some cmd) None (Some errChannel))) s)
        as (st0 & (Ht & Hcm & Hnc & Hnch & _) & Heq)
  end.
  go_run_in Heq. cbn [trace cmds next_cmd next_chan] in Ht, Hcm, Hnc, Hnch.
  rewrite Heq. clear Heq. unfold execute.
  destruct (ExecuteCommand w (getOsSpecificCommand w d) (Dir w p)
              (Some (cleaned port (Environ w)))) as [pid|e]; go_run.
  - unfold new_cmd, make_chan. go_run.
    eexists _, _. split; [reflexivity|]. split; [reflexivity|].
    split.
    + destruct (decide (next_cmd st0 = next_cmd st0)); [reflexivity|congruence].
    + rewrite Ht, <- !app_assoc. reflexivity.
  - rewrite Ht, <- !app_assoc. split; reflexivity.
Qed.

Lemma connect_run m kc st :
  match NewGaugeConnectionHandler w (portOf w) with
  | Err e =>
      StartRunnerAndMakeConnection w m kc st
      = (Fail e, record [EBind (portOf w) false] st)
  | Ok bound =>
      let started :=
        startRunner w m (Itoa bound) kc (record [EBind (portOf w) true] st) in
      match fst started with
      | Done tr =>
          match AcceptConnection w with
          | Ok c =>
              StartRunnerAndMakeConnection w m kc st
              = (Done (mkTestRunner (Cmd tr) (Some c) (ErrorChannel tr)),
                 record [EAccept true] (snd started))
          | Err ce =>
              match Cmd tr with
              | Some c =>
                  match Process (cmds (snd started) c) with
                  | Some p =>
                      StartRunnerAndMakeConnection w m kc st
                      = (Fail ce,
                         record ([EAccept false;
                                  EDebug ("Runner connection error: " +:+ ce);
                                  EProcessKill (Pid p) (killed w (Pid p))]
                                   ++ killLogs w (Pid p))
                                (snd started))
                  | None => fst (StartRunnerAndMakeConnection w m kc st) = Panic
                  end
              | None => fst (StartRunnerAndMakeConnection w m kc st) = Panic
              end
          end
      | Fail e => StartRunnerAndMakeConnection w m kc st = (Fail e, snd started)
      | Panic => StartRunnerAndMakeConnection w m kc st = (Panic, snd started)
      | Blocked => StartRunnerAndMakeConnection w m kc st = (Blocked, snd started)
      end
  end.
Proof.
  unfold StartRunnerAndMakeConnection. fold (portOf w).
  destruct (NewGaugeConnectionHandler w (portOf w)) as [bound|e]; go_run;
    [|reflexivity].
  fold (record [EBind (portOf w) true] st).
  destruct (startRunner w m (Itoa bound) kc (record [EBind (portOf w) true] st))
    as [[tr|e| |] st1]; try reflexivity.
  destruct (AcceptConnection w) as [c|ce]; go_run; [reflexivity|].
  unfold killRunner, process. go_run.
  destruct (Cmd tr) as [c|]; go_run; [|reflexivity].
  destruct (Process (cmds st1 c)) as [p|]; go_run; [|reflexivity].
  unfold killed, killLogs, record.
  destruct (ProcessKill w (Pid p)); go_run; cbn [trace];
    rewrite <- !app_assoc; reflexivity.
Qed.

(** Every call of [StartRunnerAndMakeConnection] from the initial state
    goes one of the ways of [start_outcome]. *)
Lemma start_outcomes m kc :
  start_outcome w m kc
    (fst (run (StartRunnerAndMakeConnection w m kc)))
    (trace (snd (run (StartRunnerAndMakeConnection w m kc)))).
Proof.
  unfold run.
  pose proof (connect_run m kc init_St) as HC.
  destruct (NewGaugeConnectionHandler w (portOf w)) as [bound|e] eqn:EB.
  2:{ rewrite HC. now apply StartBindFails. }
  cbv zeta in HC.
  pose proof (startRunner_run m (Itoa bound) kc
                (record [EBind (portOf w) true] init_St)) as HS.
  unfold start_spec in HS.
  destruct (startRunner w m (Itoa bound) kc
              (record [EBind (portOf w) true] init_St)) as [r1 st1].
  cbn [fst snd record trace init_St app] in HC, HS.
  destruct (GetLanguageJSONFilePath w (Language m)) as [p|e] eqn:E1.
  2:{ destruct HS as [-> Ht]. rewrite HC. cbn [fst snd]. rewrite Ht.
      eapply StartResolveFails; eauto. }
  destruct (ReadFileContents w p) as [c|e] eqn:E2.
  2:{ destruct HS as [-> Ht]. rewrite HC. cbn [fst snd]. rewrite Ht.
      eapply StartReadFails; eauto. }
  destruct (Unmarshal w c) as [d|e] eqn:E3.
  2:{ destruct HS as [-> Ht]. rewrite HC. cbn [fst snd]. rewrite Ht.
      eapply StartParseFails; eauto. }
  cbv zeta in HS.
  destruct (CheckCompatibility w (CurrentGaugeVersion w) (GaugeVersionSupport d))
    as [e|] eqn:E4.
  { destruct HS as [-> Ht]. rewrite HC. cbn [fst snd]. rewrite Ht.
    eapply StartIncompatible; eauto. }
  destruct (ExecuteCommand w (getOsSpecificCommand w d) (Dir w p)
              (Some (cleaned (Itoa bound) (Environ w)))) as [pid|e] eqn:E5.
  2:{ destruct HS as [-> Ht]. rewrite HC. cbn [fst snd]. rewrite Ht.
      eapply StartSpawnFails; eauto. }
  destruct HS as (cmd & ch & -> & Hcap & Hcmd & Ht).
  cbn [Cmd ErrorChannel] in HC.
  destruct (AcceptConnection w) as [conn|ce] eqn:E6.
  - rewrite HC. cbn [fst snd record trace]. rewrite Ht.
    eapply StartConnected; eauto.
  - rewrite Hcmd in HC. cbn [Process Pid] in HC.
    rewrite HC. cbn [fst snd record trace]. rewrite Ht.
    cbn [app].
    eapply (StartHandshakeFails w m kc bound p c d pid cmd ch ce); eauto.
Qed.

End StartFacts.

(** ** The start sequence: order of the steps and clean-up *)

Section StartClaims.
Import GoStrings GoSlice Env Model Launch Spec.

Lemma quiet_no_exec t : quiet t = true -> no_exec t.
Proof.
  intros Hq command dir env pid Hin.
  unfold quiet in Hq. rewrite forallb_forall in Hq.
  now specialize (Hq _ Hin).
Qed.

Lemma quiet_no_split t pre x post :
  quiet t = true -> t = pre ++ x :: post -> is_exec x = true -> False.
Proof.
  intros Hq -> Hx. unfold quiet in Hq. rewrite forallb_app in Hq.
  apply andb_true_iff in Hq as [_ Hq]. simpl in Hq. now rewrite Hx in Hq.
Qed.

(** The one execution of a trace is found at one place only. *)
Lemma exec_unique l1 y l2 pre x post :
  quiet l1 = true -> quiet l2 = true ->
  l1 ++ y :: l2 = pre ++ x :: post -> is_exec x = true ->
  pre = l1 /\ x = y /\ post = l2.
Proof.
  revert pre. induction l1 as [|a l1 IH]; intros pre H1 H2 Heq Hx.
  - destruct pre as [|b pre]; simpl in Heq.
    + now inversion Heq.
    + inversion Heq; subst. exfalso.
      eapply (quiet_no_split (pre ++ x :: post)); eauto.
  - simpl in H1. apply andb_true_iff in H1 as [Ha H1].
    destruct pre as [|b pre]; simpl in Heq; inversion Heq; subst.
    + now rewrite Hx in Ha.
    + destruct (IH pre H1 H2 H3 Hx) as (-> & -> & ->). auto.
Qed.

Lemma quiet_killLogs w pid : quiet (killLogs w pid) = true.
Proof. unfold killLogs. now destruct (ProcessKill w pid). Qed.

Ltac outcome_of H w m kc :=
  pose proof (start_outcomes w m kc) as H;
  remember (fst (run (StartRunnerAndMakeConnection w m kc))) as r eqn:Hr;
  remember (trace (snd (run (StartRunnerAndMakeConnection w m kc)))) as t eqn:Ht.

(** C6.  In every execution of [StartRunnerAndMakeConnection] the
    execution of the runner command comes after the listener was bound,
    the descriptor located, read and parsed, and the compatibility check
    passed, all with success and in this order; and an error of the
    listener, of the descriptor or of the compatibility check is the
    result of the call, no command having been executed. *)
Theorem spawn_only_after_checks w m kc :
  let r := fst (run (StartRunnerAndMakeConnection w m kc)) in
  let t := trace (snd (run (StartRunnerAndMakeConnection w m kc))) in
  (forall pre command dir env pid post,
      t = pre ++ EExec command dir env pid :: post ->
      exists bound p c d,
        NewGaugeConnectionHandler w (portOf w) = Ok bound
        /\ GetLanguageJSONFilePath w (Language m) = Ok p
        /\ ReadFileContents w p = Ok c
        /\ Unmarshal w c = Ok d
        /\ CheckCompatibility w (CurrentGaugeVersion w) (GaugeVersionSupport d)
           = None
        /\ pre = [EBind (portOf w) true; EResolve (Language m) true;
                  ERead p true; EParse true; ECompat true])
  /\ (forall e, NewGaugeConnectionHandler w (portOf w) = Err e ->
                r = Fail e /\ no_exec t)
  /\ (forall bound e,
        NewGaugeConnectionHandler w (portOf w) = Ok bound ->
        GetLanguageJSONFilePath w (Language m) = Err e ->
        r = Fail e /\ no_exec t)
  /\ (forall bound p e,
        NewGaugeConnectionHandler w (portOf w) = Ok bound ->
        GetLanguageJSONFilePath w (Language m) = Ok p ->
        ReadFileContents w p = Err e ->
        r = Fail e /\ no_exec t)
  /\ (forall bound p c e,
        NewGaugeConnectionHandler w (portOf w) = Ok bound ->
        GetLanguageJSONFilePath w (Language m) = Ok p ->
        ReadFileContents w p = Ok c ->
        Unmarshal w c = Err e ->
        r = Fail e /\ no_exec t)
  /\ (forall bound p c d e,
        NewGaugeConnectionHandler w (portOf w) = Ok bound ->
        GetLanguageJSONFilePath w (Language m) = Ok p ->
        ReadFileContents w p = Ok c ->
        Unmarshal w c = Ok d ->
        CheckCompatibility w (CurrentGaugeVersion w) (GaugeVersionSupport d)
        = Some e ->
        r = Fail (compatibilityMessage w) /\ no_exec t).
Proof.
  intros r0 t0. subst r0 t0. outcome_of H w m kc. clear Hr Ht.
  split.
  { intros pre command dir env pid' post Heq. rewrite Heq in H.
    inversion H; subst;
      match goal with
      | Hx : _ = pre ++ _ :: post |- _ => rename Hx into Hsplit
      end;
      try (exfalso;
           refine (quiet_no_split _ _ _ _ _ Hsplit eq_refl);
           reflexivity).
    all: match goal with
         | Hs : ?a :: ?b :: ?c :: ?d :: ?e :: ?x :: ?l2 = _ ++ _ :: _ |- _ =>
             destruct (exec_unique [a; b; c; d; e] x l2 _ _ _ eq_refl
                         ltac:(first [reflexivity
                                     | simpl; apply quiet_killLogs])
                         Hs eq_refl) as (-> & _)
         end.
    all: do 4 eexists; repeat split; try eassumption; reflexivity. }
  repeat split; intros; inversion H; subst; try congruence;
    try (apply quiet_no_exec; reflexivity).
Qed.

(** C1.  Whenever [StartRunnerAndMakeConnection] returns an error after
    the runner command was executed with success (process [pid]), the
    error is the one of the accept, and the trace of the call ends with
    the failed accept, its log line, the kill of process [pid] and, when
    that kill itself reports an error, one more log line: the spawned
    process is killed before the error is returned. *)
Theorem failed_handshake_kills_runner w m kc e command dir env pid :
  fst (run (StartRunnerAndMakeConnection w m kc)) = Fail e ->
  In (EExec command dir env (Some pid))
     (trace (snd (run (StartRunnerAndMakeConnection w m kc)))) ->
  AcceptConnection w = Err e
  /\ exists pre mid,
       trace (snd (run (StartRunnerAndMakeConnection w m kc)))
       = pre ++ [EExec command dir env (Some pid)] ++ mid
             ++ [EAccept false;
                 EDebug ("Runner connection error: " +:+ e);
                 EProcessKill pid (killed w pid)]
             ++ match ProcessKill w pid with
                | None => []
                | Some err => [EDebug ("Error while killing runner: " +:+ err)]
                end
       /\ quiet pre = true /\ quiet mid = true.
Proof.
  intros Hfail Hin. outcome_of H w m kc. clear Ht.
  rewrite Hfail in Hr. subst r.
  inversion H; subst;
    try (exfalso; eapply quiet_no_exec; [ | exact Hin]; reflexivity).
  - exfalso. simpl in Hin.
    repeat (destruct Hin as [Hin|Hin]; [discriminate Hin|]). exact Hin.
  - apply in_app_or in Hin as [Hin|Hin].
    + simpl in Hin.
      repeat (destruct Hin as [Hin|Hin];
              [try discriminate Hin|]); [|contradiction].
      inversion Hin; subst. split; [assumption|].
      exists [EBind (portOf w) true; EResolve (Language m) true;
              ERead p true; EParse true; ECompat true],
             [EGo (KillWatcher kc cmd); EGo (ExitWatcher ch cmd)].
      repeat split.
    + exfalso. eapply quiet_no_exec; [apply (quiet_killLogs w pid0) | exact Hin].
Qed.

End StartClaims.

(** ** [startRunner]: message, command and error channel *)

Section LaunchClaims.
Import GoStrings GoSlice Env Model Launch Spec.

Lemma portEntry_in_cleaned port l : In (portEntry port) (cleaned port l).
Proof.
  unfold cleaned. apply in_or_app.
  destruct (List.existsb isPortEntry l) eqn:E.
  - left. apply List.existsb_exists in E as (k & Hk & Hp).
    rewrite <- (rewriteEntry_port port k Hp). now apply List.in_map.
  - right. now left.
Qed.

Lemma append_assoc_string (a b c : string) :
  (a +:+ b) +:+ c = a +:+ (b +:+ c).
Proof.
  induction a as [|x a IH]; [reflexivity|].
  change (String x ((a +:+ b) +:+ c) = String x (a +:+ (b +:+ c))).
  now rewrite IH.
Qed.

Lemma substring_skip (pre s : string) n :
  String.substring (String.length pre) n (pre +:+ s) = String.substring 0 n s.
Proof. induction pre as [|x pre IH]; simpl; [reflexivity | exact IH]. Qed.

Lemma substring_prefix (sub post : string) :
  String.substring 0 (String.length sub) (sub +:+ post) = sub.
Proof. induction sub as [|x sub IH]; simpl; [now destruct post | now rewrite IH]. Qed.

(** A text mentions what stands in its middle. *)
Lemma mentions_inside (pre sub post : string) :
  mentions sub (pre +:+ sub +:+ post) = true.
Proof.
  destruct sub as [|x sub].
  { unfold mentions. destruct (pre +:+ "" +:+ post); reflexivity. }
  unfold mentions.
  destruct (String.index 0 (String x sub) (pre +:+ String x sub +:+ post))
    eqn:E; [reflexivity|].
  exfalso.
  apply (String.index_correct3 0 (String.length pre) _ _ E);
    [discriminate | lia |].
  now rewrite substring_skip, substring_prefix.
Qed.

(** C7, as the code has it.  When the descriptor is loaded and fails the
    compatibility check, [startRunner] returns an error whose message is
    made from the current Gauge version alone: it names that version and
    the update command with the literal placeholder [{pluginName}], it is
    the same for every descriptor, so it need not contain the runner's
    name; and no command is executed. *)
Theorem incompatible_runner_message w m port kc st p c d e :
  GetLanguageJSONFilePath w (Language m) = Ok p ->
  ReadFileContents w p = Ok c ->
  Unmarshal w c = Ok d ->
  CheckCompatibility w (CurrentGaugeVersion w) (GaugeVersionSupport d) = Some e ->
  let msg :=
    "Compatible runner version to " +:+ CurrentGaugeVersion w
      +:+ " not found. To update plugin, run `gauge --update {pluginName}`." in
  fst (startRunner w m port kc st) = Fail msg
  /\ trace (snd (startRunner w m port kc st))
     = trace st ++ [EResolve (Language m) true; ERead p true; EParse true;
                    ECompat false]
  /\ mentions (CurrentGaugeVersion w) msg = true
  /\ mentions "gauge --update {pluginName}" msg = true.
Proof.
  intros E1 E2 E3 E4 msg. pose proof (startRunner_run w m port kc st) as H.
  unfold start_spec in H. rewrite E1, E2, E3 in H. cbv zeta in H.
  rewrite E4 in H. destruct H as [Hr Ht].
  split; [exact Hr|]. split; [exact Ht|]. split.
  - apply mentions_inside.
  - unfold msg.
    change (" not found. To update plugin, run `gauge --update {pluginName}`.")
      with (" not found. To update plugin, run `"
              +:+ "gauge --update {pluginName}" +:+ "`.").
    rewrite <- (append_assoc_string (CurrentGaugeVersion w)).
    rewrite <- append_assoc_string.
    apply mentions_inside.
Qed.

(** C7, as stated, fails: for the ruby runner the message does not
    mention the runner's name. *)
Lemma compat_hint_omits_runner_name :
  ~ (forall w m port kc p c d e,
        GetLanguageJSONFilePath w (Language m) = Ok p ->
        ReadFileContents w p = Ok c ->
        Unmarshal w c = Ok d ->
        CheckCompatibility w (CurrentGaugeVersion w) (GaugeVersionSupport d)
        = Some e ->
        exists msg,
          fst (run (startRunner w m port kc)) = Fail msg
          /\ mentions (Name d) msg = true).
Proof.
  intros H.
  destruct (H (rubyWorld (Some "unsupported") (Ok 1) None) rubyManifest
              "7777" killChan "/plugins/ruby/ruby.json" "{}" rubyRunner
              "unsupported" eq_refl eq_refl eq_refl eq_refl)
    as (msg & Hmsg & Hname).
  vm_compute in Hmsg. inversion Hmsg; subst msg.
  vm_compute in Hname. discriminate Hname.
Qed.

(** C8.  The command list is the [Windows] one when [runtime.GOOS] is
    [windows], the [Darwin] one when it is [darwin] and the [Linux] one
    in every other case, for [Run] in [getOsSpecificCommand] and for
    [Init] in [ExecuteInitHookForRunner]; a start whose descriptor loads
    and passes the compatibility check executes exactly that command in
    the descriptor's directory with an environment that holds the port
    entry, and the init hook, for a descriptor file that is not the JSON
    value [null], locates the descriptor once more and executes the
    [Init] command there. *)
Theorem command_for_platform w m port kc st p c d :
  GetLanguageJSONFilePath w (Language m) = Ok p ->
  ReadFileContents w p = Ok c ->
  Unmarshal w c = Ok d ->
  CheckCompatibility w (CurrentGaugeVersion w) (GaugeVersionSupport d) = None ->
  (GOOS w = "windows" ->
   getOsSpecificCommand w d = Windows (Run d)
   /\ osSpecific w (Init d) = Windows (Init d))
  /\ (GOOS w = "darwin" ->
      getOsSpecificCommand w d = Darwin (Run d)
      /\ osSpecific w (Init d) = Darwin (Init d))
  /\ (GOOS w <> "windows" -> GOOS w <> "darwin" ->
      getOsSpecificCommand w d = Linux (Run d)
      /\ osSpecific w (Init d) = Linux (Init d))
  /\ (exists env pid post,
         trace (snd (startRunner w m port kc st))
         = trace st ++ [EResolve (Language m) true; ERead p true; EParse true;
                        ECompat true;
                        EExec (getOsSpecificCommand w d) (Dir w p) (Some env) pid]
                    ++ post
         /\ In (GaugeInternalPortEnvName +:+ "=" +:+ port) env)
  /\ (SetProjectRoot w = None ->
      GoJSON.isNull c = false ->
      exists pid,
        trace (snd (run (ExecuteInitHookForRunner w (Language m))))
        = [EResolve (Language m) true; ERead p true; EParse true;
           EResolve (Language m) true;
           EExec (osSpecific w (Init d)) (Dir w p) None pid]).
Proof.
  intros E1 E2 E3 E4.
  unfold getOsSpecificCommand, osSpecific.
  split; [intros ->; split; reflexivity|].
  split; [intros ->; split; reflexivity|].
  split.
  { intros Hw Hd.
    apply String.eqb_neq in Hw, Hd. rewrite Hw, Hd. split; reflexivity. }
  split.
  - pose proof (startRunner_run w m port kc st) as H.
    unfold start_spec in H. rewrite E1, E2, E3 in H. cbv zeta in H.
    rewrite E4 in H. fold (osSpecific w (Run d)).
    fold (getOsSpecificCommand w d).
    exists (cleaned port (Environ w)).
    destruct (ExecuteCommand w (getOsSpecificCommand w d) (Dir w p)
                (Some (cleaned port (Environ w)))) as [pid|err].
    + destruct H as (cmd & ch & _ & _ & _ & Ht).
      exists (Some pid), [EGo (KillWatcher kc cmd); EGo (ExitWatcher ch cmd)].
      split; [rewrite Ht; reflexivity | apply portEntry_in_cleaned].
    + destruct H as [_ Ht]. exists None, [].
      split; [rewrite Ht; reflexivity | apply portEntry_in_cleaned].
  - intros E0 En. fold (osSpecific w (Init d)).
    unfold run, ExecuteInitHookForRunner, GetRunnerInfo, execute.
    rewrite E0, E1. go_run. rewrite E2. go_run. rewrite En, E3. go_run.
    destruct (ExecuteCommand w (osSpecific w (Init d)) (Dir w p) None)
      as [pid|err]; go_run.
    + exists (Some pid). unfold new_cmd. go_run.
      match goal with
      | |- context [Wait w ?c] => destruct (Wait w c)
      end; reflexivity.
    + exists None. reflexivity.
Qed.

(** C2, as the code has it.  The channel of a started [TestRunner] is the
    one the exit watcher was given and has capacity 0; the watcher sends
    nothing when the process exits with a nil error, and otherwise makes
    one send, which hands the value over when a receiver waits and blocks
    with nothing delivered when none does. *)
Theorem exit_channel_unbuffered w m port kc st tr :
  fst (startRunner w m port kc st) = Done tr ->
  exists cmd ch,
    Cmd tr = Some cmd /\ ErrorChannel tr = Some ch
    /\ chan_cap ch = 0
    /\ In (EGo (ExitWatcher ch cmd)) (trace (snd (startRunner w m port kc st)))
    /\ forall st',
        (Wait w cmd = None -> exitWatcher w ch cmd st' = (Done tt, st'))
        /\ (forall err, Wait w cmd = Some err ->
              ReceiverWaiting w ch = true ->
              exitWatcher w ch cmd st'
              = (Done tt,
                 record [EDebug ("Runner exited with error: " +:+ err);
                         ESent ch ("Runner exited with error: " +:+ err
                                     +:+ newline)] st'))
        /\ (forall err, Wait w cmd = Some err ->
              ReceiverWaiting w ch = false ->
              exitWatcher w ch cmd st'
              = (Blocked,
                 record [EDebug ("Runner exited with error: " +:+ err)] st')).
Proof.
  intros Hdone. pose proof (startRunner_run w m port kc st) as H.
  unfold start_spec in H. rewrite Hdone in H.
  repeat match type of H with
         | match ?x with _ => _ end => destruct x
         | _ /\ _ => destruct H as [H _]
         end; try discriminate H.
  destruct H as (cmd & ch & Htr & Hcap & _ & Ht).
  inversion Htr; subst tr; clear Htr.
  exists cmd, ch. repeat split; try assumption; try reflexivity.
  - rewrite Ht. rewrite !in_app_iff. right. right. simpl. auto.
  - intros Hw. unfold exitWatcher. now rewrite Hw.
  - intros err Hw Hr. unfold exitWatcher, chan_send. rewrite Hw. go_run.
    rewrite Hcap.
    destruct (decide (length (buffered st' (chan_id ch)) < 0)); [lia|].
    rewrite Hr. unfold record, exitMessage. cbn [trace].
    now rewrite <- app_assoc.
  - intros err Hw Hr. unfold exitWatcher, chan_send. rewrite Hw. go_run.
    rewrite Hcap.
    destruct (decide (length (buffered st' (chan_id ch)) < 0)); [lia|].
    rewrite Hr. reflexivity.
Qed.

(** C2, as stated, fails: the channel of the started ruby runner does
    not have capacity 1. *)
Lemma exit_channel_capacity_not_one :
  ~ (forall w m port kc tr ch,
        fst (run (startRunner w m port kc)) = Done tr ->
        ErrorChannel tr = Some ch ->
        chan_cap ch = 1).
Proof.
  intros H.
  specialize (H (rubyWorld None (Ok 1) None) rubyManifest "7777" killChan
                (mkTestRunner (Some 0) None (Some (mkChan 0 0)))
                (mkChan 0 0) eq_refl eq_refl).
  discriminate H.
Qed.

End LaunchClaims.

(** ** [Kill] *)

Section KillClaims.
Import GoStrings GoSlice Env Model Launch Spec.
Local Open Scope go_scope.

Variable w : World.

Lemma bind_done {A B} (m : M A) (k : A -> M B) st a st1 :
  m st = (Done a, st1) -> bind m k st = k a st1.
Proof. unfold bind. now intros ->. Qed.

Lemma isStillRunning_cmds st st' tr :
  (forall c, ProcessState (cmds st' c) = ProcessState (cmds st c)) ->
  isStillRunning st' tr = isStillRunning st tr.
Proof.
  intros H. unfold isStillRunning. destruct tr as [tr|]; [|reflexivity].
  destruct (Cmd tr) as [c|]; [|reflexivity]. now rewrite H.
Qed.

Lemma isStillRunning_after_sleep st tr c :
  Cmd tr = Some c ->
  stillRunning (ProcessStateAfter w c (S (sleeps st))) ->
  isStillRunning (snd (sleep w st)) (Some tr) = true.
Proof.
  intros Hc Hs. unfold isStillRunning, sleep. cbn. rewrite Hc.
  destruct (ProcessStateAfter w c (S (sleeps st))) as [ps|] eqn:E;
    [|reflexivity].
  now rewrite (Hs ps eq_refl).
Qed.

(** While the process is seen running at every check, the poller does not
    signal: it only sleeps. *)
Lemma poller_times_out tr c n :
  forall st,
    Cmd tr = Some c ->
    isStillRunning st (Some tr) = true ->
    (forall k, 1 <= k <= n ->
               stillRunning (ProcessStateAfter w c (sleeps st + k))) ->
    exists st',
      poller w (Some tr) n st = (Done false, st')
      /\ trace st' = trace st
      /\ (forall i, Process (cmds st' i) = Process (cmds st i)).
Proof.
  induction n as [|n IH]; intros st Hc Hrun Hall.
  - exists st. repeat split.
  - cbn [poller]. unfold bind at 1, get_st. rewrite Hrun.
    assert (H1 : isStillRunning (snd (sleep w st)) (Some tr) = true).
    { apply (isStillRunning_after_sleep st tr c Hc).
      replace (S (sleeps st)) with (sleeps st + 1) by lia.
      apply Hall. lia. }
    destruct (IH (snd (sleep w st)) Hc H1) as (st' & Hp & Ht & Hpr).
    { intros k Hk. cbn [sleep snd sleeps].
      replace (S (sleeps st) + k) with (sleeps st + S k) by lia.
      apply Hall. lia. }
    exists st'. split; [|split].
    + unfold bind. cbn [sleep]. exact Hp.
    + rewrite Ht. reflexivity.
    + intros i. rewrite Hpr. reflexivity.
Qed.

(** The guard of [Kill].  On a runner whose [ProcessState] is set and
    whose [Exited()] holds, [Kill] returns nil and leaves the state as it
    was: no message is written, nothing is closed or killed; and so does
    a second [Kill] right after the first. *)
Theorem Kill_exited st tr c ps :
  Cmd tr = Some c ->
  ProcessState (cmds st c) = Some ps ->
  Exited ps = true ->
  Kill w (Some tr) st = (Done tt, st)
  /\ (Kill w (Some tr) ;;; Kill w (Some tr)) st = (Done tt, st).
Proof.
  intros Hc Hps Hex.
  assert (Hrun : isStillRunning st (Some tr) = false).
  { unfold isStillRunning. now rewrite Hc, Hps, Hex. }
  assert (HK : Kill w (Some tr) st = (Done tt, st)).
  { unfold Kill, bind, get_st. now rewrite Hrun. }
  split; [exact HK|].
  rewrite (bind_done _ _ _ _ _ HK). exact HK.
Qed.

(** C9.  [Kill] on a nil [*TestRunner], or on one whose [Cmd] is nil,
    returns nil and leaves the state as it was, whatever its connection
    and channel are (nil included): [isStillRunning] is false there. *)
Theorem Kill_degenerate st :
  isStillRunning st None = false
  /\ Kill w None st = (Done tt, st)
  /\ forall conn ch,
      isStillRunning st (Some (mkTestRunner None conn ch)) = false
      /\ Kill w (Some (mkTestRunner None conn ch)) st = (Done tt, st).
Proof. repeat split. Qed.

(** C4.  On a running runner with a connection whose process is still
    seen running at every check of the grace period, [Kill] writes the
    stop request, then logs the warning that names the process id, calls
    the kill of the process once, and closes the connection; it returns
    nil when that kill succeeds and the kill's error when it fails. *)
Theorem Kill_forced st tr c p conn :
  Cmd tr = Some c ->
  Process (cmds st c) = Some p ->
  Connection tr = Some conn ->
  isStillRunning st (Some tr) = true ->
  (forall k, 1 <= k <= PluginKillTimeout w ->
             stillRunning (ProcessStateAfter w c (sleeps st + k))) ->
  fst (Kill w (Some tr) st)
  = match ProcessKill w (Pid p) with None => Done tt | Some e => Fail e end
  /\ trace (snd (Kill w (Some tr) st))
     = trace st
         ++ [EWrite conn (mkMessage (GetUniqueID w (length (trace st)))
                                    KillProcessRequest);
             EWarning ("Killing runner with PID:" +:+ Itoa (Pid p)
                         +:+ " forcefully");
             EProcessKill (Pid p) (killed w (Pid p));
             EClose conn].
Proof.
  intros Hc Hp Hconn Hrun Hall.
  cut (exists st',
          Kill w (Some tr) st
          = (match ProcessKill w (Pid p) with
             | None => Done tt
             | Some e => Fail e
             end, st')
          /\ trace st'
             = trace st
                 ++ [EWrite conn (mkMessage (GetUniqueID w (length (trace st)))
                                            KillProcessRequest);
                     EWarning ("Killing runner with PID:" +:+ Itoa (Pid p)
                                 +:+ " forcefully");
                     EProcessKill (Pid p) (killed w (Pid p));
                     EClose conn]).
  { intros (st' & -> & Ht). split; [reflexivity | exact Ht]. }
  unfold Kill. unfold bind at 1, get_st. rewrite Hrun, Hconn.
  unfold defer.
  set (st1 := record [EWrite conn (mkMessage (GetUniqueID w (length (trace st)))
                                             KillProcessRequest)] st).
  assert (Hsend : sendProcessKillMessage w (Some tr) st = (Done tt, st1)).
  { unfold sendProcessKillMessage, bind, get_st. now rewrite Hconn. }
  rewrite (bind_done _ _ _ _ _ Hsend).
  assert (Hrun1 : isStillRunning st1 (Some tr) = true)
    by (rewrite <- Hrun; now apply isStillRunning_cmds).
  destruct (poller_times_out tr c (PluginKillTimeout w) st1 Hc Hrun1 Hall)
    as (st2 & Hpoll & Ht2 & Hp2).
  rewrite (bind_done _ _ _ _ _ Hpoll).
  assert (Hp2' : Process (cmds st2 c) = Some p)
    by (rewrite Hp2; exact Hp).
  assert (Hproc : forall l, process (Some tr) (record l st2)
                            = (Done p, record l st2)).
  { intros l. unfold process, bind, get_st. rewrite Hc. cbn [record cmds].
    now rewrite Hp2'. }
  pose proof (Hproc []) as Hproc0.
  assert (Hnil : record [] st2 = st2)
    by (destruct st2; unfold record; cbn; now rewrite app_nil_r).
  rewrite Hnil in Hproc0.
  rewrite (bind_done _ _ _ _ _ Hproc0).
  unfold forcefulWarning, killRunner.
  unfold bind at 1, emit.
  fold (record [EWarning ("Killing runner with PID:" +:+ Itoa (Pid p)
                            +:+ " forcefully")] st2).
  rewrite (bind_done _ _ _ _ _ (Hproc _)).
  unfold killed, call. go_run.
  destruct (ProcessKill w (Pid p)); go_run;
    (eexists; split; [reflexivity|]);
    unfold record; cbn [trace]; rewrite Ht2; unfold st1, record;
    cbn [trace]; rewrite <- !app_assoc; reflexivity.
Qed.

End KillClaims.

(** * The statements at the sample inputs *)

Section Samples.
Import GoStrings GoSlice Env Model Launch Spec.
Local Open Scope go_scope.

Lemma inherited_wf : wf inheritedStore inheritedEnv.
Proof. eexists; split; [reflexivity | simpl; lia]. Defined.

Lemma doubled_wf : wf doubledStore doubledEnv.
Proof. eexists; split; [reflexivity | simpl; lia]. Defined.

(** The scenario of the specification: from an environment holding
    [GAUGE_INTERNAL_PORT=9999] and port [7777]. *)
Lemma getCleanEnv_rewrites_or_appends_sample :
  wf inheritedStore inheritedEnv
  /\ List.filter isPortEntry
       (childEnv (fun _ => 0) "7777" inheritedEnv inheritedStore)
     = ["GAUGE_INTERNAL_PORT=7777"].
Proof.
  split; [exact inherited_wf|].
  apply (getCleanEnv_rewrites_or_appends (fun _ => 0) "7777" inheritedEnv
           inheritedStore inherited_wf).
  vm_compute. lia.
Defined.

Lemma getCleanEnv_frame_sample :
  wf doubledStore doubledEnv
  /\ fst (getCleanEnv (fun _ => 0) "7777" doubledEnv doubledStore) = doubledEnv
  /\ childEnv (fun _ => 0) "7777" doubledEnv doubledStore
     = callerEnv (fun _ => 0) "7777" doubledEnv doubledStore.
Proof.
  split; [exact doubled_wf|].
  destruct (getCleanEnv_frame (fun _ => 0) "7777" doubledEnv doubledStore
              doubled_wf) as (_ & _ & _ & _ & H).
  destruct H as (H1 & H2 & _); [vm_compute; lia|].
  split; assumption.
Defined.

Example getCleanEnv_doubled :
  callerEnv (fun _ => 0) "7777" doubledEnv doubledStore
  = ["GAUGE_INTERNAL_PORT=7777"; "A=b"; "GAUGE_INTERNAL_PORT=7777"; "C=d"].
Proof. vm_compute. reflexivity. Qed.

Example getCleanEnv_absent_appends :
  childEnv (fun _ => 0) "7777" (mkSlice 0 0 2) {[ 0 := ["A=b"; "C=d"] ]}
  = ["A=b"; "C=d"; "GAUGE_INTERNAL_PORT=7777"].
Proof. vm_compute. reflexivity. Qed.

Lemma failed_handshake_kills_runner_sample :
  let w := rubyWorld None (Err "Timed out connecting to 7777") None in
  let run_ := run (StartRunnerAndMakeConnection w rubyManifest killChan) in
  let env := Some ["PATH=/usr/bin"; "GAUGE_INTERNAL_PORT=7777"; "HOME=/root"] in
  fst run_ = Fail "Timed out connecting to 7777"
  /\ In (EExec ["ruby"; "run.rb"] "/plugins/ruby" env (Some 4242%Z))
        (trace (snd run_))
  /\ AcceptConnection w = Err "Timed out connecting to 7777"
  /\ In (EProcessKill 4242 true) (trace (snd run_)).
Proof.
  intros w run_ env.
  assert (H1 : fst run_ = Fail "Timed out connecting to 7777")
    by (vm_compute; reflexivity).
  assert (H2 : In (EExec ["ruby"; "run.rb"] "/plugins/ruby" env (Some 4242%Z))
                  (trace (snd run_)))
    by (vm_compute; repeat (first [left; reflexivity | right])).
  split; [exact H1|]. split; [exact H2|].
  destruct (failed_handshake_kills_runner w rubyManifest killChan _ _ _ _ _
              H1 H2) as (Ha & pre & mid & Ht & _).
  split; [exact Ha|].
  unfold run_. rewrite Ht. rewrite !in_app_iff. right. right. right. left.
  simpl. auto.
Defined.

Lemma incompatible_runner_message_sample :
  let w := rubyWorld (Some "unsupported") (Ok 1) None in
  fst (startRunner w rubyManifest "7777" killChan init_St)
  = Fail "Compatible runner version to 1.0.0 not found. To update plugin, run `gauge --update {pluginName}`.".
Proof.
  intros w.
  exact (proj1 (incompatible_runner_message w rubyManifest "7777" killChan
                  init_St "/plugins/ruby/ruby.json" "{}" rubyRunner
                  "unsupported" eq_refl eq_refl eq_refl eq_refl)).
Defined.

(** The scenario of the specification: the ruby descriptor on linux. *)
Lemma command_for_platform_sample :
  let w := rubyWorld None (Ok 1) None in
  getOsSpecificCommand w rubyRunner = ["ruby"; "run.rb"]
  /\ (exists env pid post,
         trace (snd (startRunner w rubyManifest "7777" killChan init_St))
         = [EResolve "ruby" true; ERead "/plugins/ruby/ruby.json" true;
            EParse true; ECompat true;
            EExec ["ruby"; "run.rb"] "/plugins/ruby" (Some env) pid] ++ post
         /\ In "GAUGE_INTERNAL_PORT=7777" env)
  /\ exists pid,
      trace (snd (run (ExecuteInitHookForRunner w "ruby")))
      = [EResolve "ruby" true; ERead "/plugins/ruby/ruby.json" true;
         EParse true; EResolve "ruby" true;
         EExec ["ruby"; "init.rb"] "/plugins/ruby" None pid].
Proof.
  intros w.
  destruct (command_for_platform w rubyManifest "7777" killChan init_St
              "/plugins/ruby/ruby.json" "{}" rubyRunner
              eq_refl eq_refl eq_refl eq_refl)
    as (_ & _ & Hlinux & Hexec & Hinit).
  split; [apply Hlinux; discriminate|].
  split; [exact Hexec|].
  exact (Hinit eq_refl eq_refl).
Defined.

Lemma exit_channel_unbuffered_sample :
  let w := rubyWorld None (Ok 1) None in
  fst (startRunner w rubyManifest "7777" killChan init_St)
  = Done (mkTestRunner (Some 0) None (Some (mkChan 0 0)))
  /\ exists cmd ch,
       ErrorChannel (mkTestRunner (Some 0) None (Some (mkChan 0 0))) = Some ch
       /\ chan_cap ch = 0
       /\ fst (exitWatcher w ch cmd init_St) = Blocked.
Proof.
  intros w.
  assert (H : fst (startRunner w rubyManifest "7777" killChan init_St)
              = Done (mkTestRunner (Some 0) None (Some (mkChan 0 0))))
    by (vm_compute; reflexivity).
  split; [exact H|].
  destruct (exit_channel_unbuffered w rubyManifest "7777" killChan init_St _ H)
    as (cmd & ch & _ & Hch & Hcap & _ & Hw).
  exists cmd, ch. split; [exact Hch|]. split; [exact Hcap|].
  destruct (Hw init_St) as (_ & _ & Hb).
  now rewrite (Hb "exit status 1" eq_refl eq_refl).
Defined.

Lemma Kill_exited_sample :
  let w := rubyWorld None (Ok 1) None in
  Cmd rubyHandle = Some 0
  /\ ProcessState (cmds exitedSt 0) = Some (mkProcessState true)
  /\ Exited (mkProcessState true) = true
  /\ Kill w (Some rubyHandle) exitedSt = (Done tt, exitedSt)
  /\ (Kill w (Some rubyHandle) ;;; Kill w (Some rubyHandle)) exitedSt
     = (Done tt, exitedSt).
Proof.
  intros w. do 3 (split; [reflexivity|]).
  exact (Kill_exited w exitedSt rubyHandle 0 (mkProcessState true)
           eq_refl eq_refl eq_refl).
Defined.

Lemma Kill_forced_sample :
  let w := rubyWorld None (Ok 1) None in
  isStillRunning liveSt (Some rubyHandle) = true
  /\ (forall k, 1 <= k <= PluginKillTimeout w ->
                stillRunning (ProcessStateAfter w 0 (sleeps liveSt + k)))
  /\ fst (Kill w (Some rubyHandle) liveSt) = Done tt
  /\ trace (snd (Kill w (Some rubyHandle) liveSt))
     = [EWrite 1 (mkMessage 0 KillProcessRequest);
        EWarning "Killing runner with PID:4242 forcefully";
        EProcessKill 4242 true;
        EClose 1].
Proof.
  intros w.
  assert (Hall : forall k, 1 <= k <= PluginKillTimeout w ->
                   stillRunning (ProcessStateAfter w 0 (sleeps liveSt + k)))
    by (intros k _ ps Hps; discriminate Hps).
  split; [reflexivity|]. split; [exact Hall|].
  exact (Kill_forced w liveSt rubyHandle 0 (mkProcess 4242) 1
           eq_refl eq_refl eq_refl eq_refl Hall).
Defined.

End Samples.

(** * Further properties of [runner.go] *)

(** ** [Kill]: the race of the poller and the timer *)

Section KillRace.
Import GoStrings GoSlice Env Model Launch Spec.
Local Open Scope go_scope.

Variable w : World.

(** The poller always comes back, having only slept. *)
Lemma poller_returns tr n :
  forall st,
    exists b st',
      poller w tr n st = (Done b, st')
      /\ trace st' = trace st
      /\ (forall i, Process (cmds st' i) = Process (cmds st i))
      /\ (b = true -> isStillRunning st' tr = false).
Proof.
  induction n as [|n IH]; intros st.
  - exists false, st. repeat split. discriminate.
  - cbn [poller]. unfold bind at 1, get_st.
    destruct (isStillRunning st tr) eqn:Hrun.
    + destruct (IH (snd (sleep w st))) as (b & st' & Hp & Ht & Hpr & Hb).
      exists b, st'. split; [|split; [|split]].
      * unfold bind. cbn [sleep]. exact Hp.
      * rewrite Ht. reflexivity.
      * intros i. rewrite Hpr. reflexivity.
      * exact Hb.
    + exists true, st. repeat split. intros _. exact Hrun.
Qed.

(** When the process is first seen exited after [j] sleeps, and the timer
    leaves room for that check, the poller signals after [j] sleeps. *)
Lemma poller_sees_exit tr c ps n :
  forall j st,
    Cmd tr = Some c ->
    isStillRunning st (Some tr) = true ->
    1 <= j < n ->
    (forall k, 1 <= k < j ->
               stillRunning (ProcessStateAfter w c (sleeps st + k))) ->
    ProcessStateAfter w c (sleeps st + j) = Some ps ->
    Exited ps = true ->
    exists st',
      poller w (Some tr) n st = (Done true, st')
      /\ trace st' = trace st
      /\ sleeps st' = sleeps st + j
      /\ isStillRunning st' (Some tr) = false.
Proof.
  induction n as [|n IH]; intros j st Hc Hrun Hj Hbefore Hps Hex; [lia|].
  cbn [poller]. unfold bind at 1, get_st. rewrite Hrun.
  unfold bind at 1. cbn [sleep].
  set (st1 := mkSt (trace st)
                   (fun c0 => mkCmd (Process (cmds st c0))
                                    (ProcessStateAfter w c0 (S (sleeps st))))
                   (next_cmd st) (next_chan st) (S (sleeps st))
                   (buffered st) (heap st)).
  destruct (Nat.eq_dec j 1) as [->|Hne].
  - destruct n as [|n]; [lia|].
    assert (Hstop : isStillRunning st1 (Some tr) = false).
    { unfold isStillRunning, st1. cbn [cmds ProcessState]. rewrite Hc.
      replace (S (sleeps st)) with (sleeps st + 1) by lia.
      now rewrite Hps, Hex. }
    exists st1. cbn [poller]. unfold bind, get_st. rewrite Hstop.
    split; [reflexivity|]. split; [reflexivity|].
    split; [unfold st1; cbn [sleeps]; lia | reflexivity].
  - assert (Hrun1 : isStillRunning st1 (Some tr) = true).
    { unfold isStillRunning, st1. cbn [cmds ProcessState]. rewrite Hc.
      replace (S (sleeps st)) with (sleeps st + 1) by lia.
      destruct (ProcessStateAfter w c (sleeps st + 1)) as [q|] eqn:E;
        [|reflexivity].
      assert (Hq : stillRunning (ProcessStateAfter w c (sleeps st + 1)))
        by (apply Hbefore; lia).
      rewrite E in Hq. now rewrite (Hq q eq_refl). }
    destruct (IH (j - 1) st1 Hc Hrun1) as (st' & Hp & Ht & Hs & Hstop);
      try assumption; try lia.
    + intros k Hk. unfold st1. cbn [sleeps].
      replace (S (sleeps st) + k) with (sleeps st + S k) by lia.
      apply Hbefore. lia.
    + unfold st1. cbn [sleeps].
      replace (S (sleeps st) + (j - 1)) with (sleeps st + j) by lia.
      exact Hps.
    + exists st'. split; [exact Hp|]. split; [exact Ht|].
      split; [|exact Hstop]. rewrite Hs. unfold st1. cbn [sleeps]. lia.
Qed.

(** [Kill] on a running runner with a connection and a process, from what
    its poller does. *)
Lemma Kill_run st tr c p conn b st2 :
  Cmd tr = Some c ->
  Process (cmds st c) = Some p ->
  Connection tr = Some conn ->
  isStillRunning st (Some tr) = true ->
  poller w (Some tr) (PluginKillTimeout w)
         (record [EWrite conn (mkMessage (GetUniqueID w (length (trace st)))
                                         KillProcessRequest)] st)
  = (Done b, st2) ->
  (forall i, Process (cmds st2 i) = Process (cmds st i)) ->
  Kill w (Some tr) st
  = if b then (Done tt, record [EClose conn] st2)
    else (match ProcessKill w (Pid p) with
          | None => Done tt
          | Some e => Fail e
          end,
          record [EWarning ("Killing runner with PID:" +:+ Itoa (Pid p)
                              +:+ " forcefully");
                  EProcessKill (Pid p) (killed w (Pid p));
                  EClose conn] st2).
Proof.
  intros Hc Hp Hconn Hrun Hpoll Hp2.
  unfold Kill. unfold bind at 1, get_st. rewrite Hrun, Hconn. unfold defer.
  assert (Hsend : sendProcessKillMessage w (Some tr) st
                  = (Done tt,
                     record [EWrite conn
                               (mkMessage (GetUniqueID w (length (trace st)))
                                          KillProcessRequest)] st)).
  { unfold sendProcessKillMessage, bind, get_st. now rewrite Hconn. }
  rewrite (bind_done _ _ _ _ _ Hsend), (bind_done _ _ _ _ _ Hpoll).
  destruct b; [reflexivity|].
  assert (Hp2' : Process (cmds st2 c) = Some p) by (rewrite Hp2; exact Hp).
  assert (Hproc : forall l, process (Some tr) (record l st2)
                            = (Done p, record l st2)).
  { intros l. unfold process, bind, get_st. rewrite Hc. cbn [record cmds].
    now rewrite Hp2'. }
  assert (Hnil : record [] st2 = st2)
    by (destruct st2; unfold record; cbn; now rewrite app_nil_r).
  pose proof (Hproc []) as Hproc0. rewrite Hnil in Hproc0.
  rewrite (bind_done _ _ _ _ _ Hproc0).
  unfold forcefulWarning, killRunner. unfold bind at 1, emit.
  fold (record [EWarning ("Killing runner with PID:" +:+ Itoa (Pid p)
                            +:+ " forcefully")] st2).
  rewrite (bind_done _ _ _ _ _ (Hproc _)).
  unfold killed, call. go_run.
  destruct (ProcessKill w (Pid p)); go_run; unfold record; cbn [trace];
    rewrite <- !app_assoc; reflexivity.
Qed.

End KillRace.

Section KillAfterSignal.
Import GoStrings GoSlice Env Model Launch Spec.
Local Open Scope go_scope.

Variable w : World.

(** C3.  The claim does not hold of a runner whose process has ended by a
    signal.  Its [ProcessState] is set and [Exited()] is false, so
    [isStillRunning] holds of it although the process is gone, and [Kill]
    does not return at once: it writes the stop request, waits for the
    whole grace period, logs the warning, kills the process once more and
    closes the connection, and it returns what that kill returns. *)
Theorem Kill_after_signal_exit st tr c p conn ps :
  Cmd tr = Some c ->
  Process (cmds st c) = Some p ->
  Connection tr = Some conn ->
  ProcessState (cmds st c) = Some ps ->
  Exited ps = false ->
  (forall k, 1 <= k <= PluginKillTimeout w ->
             ProcessStateAfter w c (sleeps st + k) = Some ps) ->
  isStillRunning st (Some tr) = true
  /\ fst (Kill w (Some tr) st)
     = match ProcessKill w (Pid p) with None => Done tt | Some e => Fail e end
  /\ trace (snd (Kill w (Some tr) st))
     = trace st
         ++ [EWrite conn (mkMessage (GetUniqueID w (length (trace st)))
                                    KillProcessRequest);
             EWarning ("Killing runner with PID:" +:+ Itoa (Pid p)
                         +:+ " forcefully");
             EProcessKill (Pid p) (killed w (Pid p));
             EClose conn].
Proof.
  intros Hc Hp Hconn Hps Hex Hstay.
  assert (Hrun : isStillRunning st (Some tr) = true).
  { unfold isStillRunning. now rewrite Hc, Hps, Hex. }
  split; [exact Hrun|].
  set (st1 := record [EWrite conn (mkMessage (GetUniqueID w (length (trace st)))
                                             KillProcessRequest)] st).
  assert (Hrun1 : isStillRunning st1 (Some tr) = true)
    by (rewrite <- Hrun; now apply isStillRunning_cmds).
  assert (Hall : forall k, 1 <= k <= PluginKillTimeout w ->
                   stillRunning (ProcessStateAfter w c (sleeps st1 + k))).
  { intros k Hk q Hq. unfold st1 in Hq. cbn [record sleeps] in Hq.
    rewrite (Hstay k Hk) in Hq. inversion Hq; subst q. exact Hex. }
  destruct (poller_times_out w tr c (PluginKillTimeout w) st1 Hc Hrun1 Hall)
    as (st2 & Hpoll & Ht2 & Hp2).
  rewrite (Kill_run w st tr c p conn false st2 Hc Hp Hconn Hrun Hpoll Hp2).
  cbn [fst snd record trace]. rewrite Ht2. unfold st1. cbn [record trace].
  rewrite <- app_assoc. split; reflexivity.
Qed.

End KillAfterSignal.

Section KillExtras.
Import GoStrings GoSlice Env Model Launch Spec.
Local Open Scope go_scope.

Variable w : World.

(** [Kill] when the poller signals before the timer. *)
Lemma Kill_signalled st tr c conn ps j :
  Cmd tr = Some c ->
  Connection tr = Some conn ->
  isStillRunning st (Some tr) = true ->
  1 <= j < PluginKillTimeout w ->
  (forall k, 1 <= k < j ->
             stillRunning (ProcessStateAfter w c (sleeps st + k))) ->
  ProcessStateAfter w c (sleeps st + j) = Some ps ->
  Exited ps = true ->
  exists st',
    Kill w (Some tr) st = (Done tt, st')
    /\ trace st'
       = trace st
           ++ [EWrite conn (mkMessage (GetUniqueID w (length (trace st)))
                                      KillProcessRequest);
               EClose conn]
    /\ sleeps st' = sleeps st + j
    /\ isStillRunning st' (Some tr) = false.
Proof.
  intros Hc Hconn Hrun Hj Hbefore Hps Hex.
  set (st1 := record [EWrite conn (mkMessage (GetUniqueID w (length (trace st)))
                                             KillProcessRequest)] st).
  assert (Hrun1 : isStillRunning st1 (Some tr) = true)
    by (rewrite <- Hrun; now apply isStillRunning_cmds).
  destruct (poller_sees_exit w tr c ps (PluginKillTimeout w) j st1
              Hc Hrun1 Hj Hbefore Hps Hex) as (st2 & Hpoll & Ht & Hs & Hstop).
  exists (record [EClose conn] st2).
  split; [|split; [|split]].
  - unfold Kill. unfold bind at 1, get_st. rewrite Hrun, Hconn. unfold defer.
    assert (Hsend : sendProcessKillMessage w (Some tr) st = (Done tt, st1)).
    { unfold sendProcessKillMessage, bind, get_st. now rewrite Hconn. }
    rewrite (bind_done _ _ _ _ _ Hsend), (bind_done _ _ _ _ _ Hpoll).
    reflexivity.
  - cbn [record trace]. rewrite Ht. unfold st1. cbn [record trace].
    now rewrite <- app_assoc.
  - cbn [record sleeps]. rewrite Hs. reflexivity.
  - rewrite <- Hstop. now apply isStillRunning_cmds.
Qed.

(** X1.  A running runner whose process is first seen exited after [j]
    sleeps of the poller, [j] checks fitting in the grace period, is
    stopped gracefully: [Kill] returns nil after those [j] sleeps, having
    written the stop request and closed the connection and nothing else;
    no warning is logged and the process is not killed. *)
Theorem Kill_graceful st tr c conn ps j :
  Cmd tr = Some c ->
  Connection tr = Some conn ->
  isStillRunning st (Some tr) = true ->
  1 <= j < PluginKillTimeout w ->
  (forall k, 1 <= k < j ->
             stillRunning (ProcessStateAfter w c (sleeps st + k))) ->
  ProcessStateAfter w c (sleeps st + j) = Some ps ->
  Exited ps = true ->
  exists st',
    Kill w (Some tr) st = (Done tt, st')
    /\ trace st'
       = trace st
           ++ [EWrite conn (mkMessage (GetUniqueID w (length (trace st)))
                                      KillProcessRequest);
               EClose conn]
    /\ sleeps st' = sleeps st + j
    /\ isStillRunning st' (Some tr) = false.
Proof. apply Kill_signalled. Qed.

(** X2.  After a graceful stop a second [Kill] is silent: the two calls in
    sequence end in the state of the first, so the stop request is written
    once and the connection is closed once. *)
Theorem Kill_twice_after_graceful st tr c conn ps j :
  Cmd tr = Some c ->
  Connection tr = Some conn ->
  isStillRunning st (Some tr) = true ->
  1 <= j < PluginKillTimeout w ->
  (forall k, 1 <= k < j ->
             stillRunning (ProcessStateAfter w c (sleeps st + k))) ->
  ProcessStateAfter w c (sleeps st + j) = Some ps ->
  Exited ps = true ->
  (Kill w (Some tr) ;;; Kill w (Some tr)) st = Kill w (Some tr) st.
Proof.
  intros Hc Hconn Hrun Hj Hbefore Hps Hex.
  destruct (Kill_signalled st tr c conn ps j Hc Hconn Hrun Hj Hbefore Hps Hex)
    as (st' & HK & _ & _ & Hstop).
  rewrite (bind_done _ _ _ _ _ HK), HK.
  unfold Kill, bind, get_st. now rewrite Hstop.
Qed.

(** X3.  Every [Kill] of a running runner that has a process and a
    connection goes one of two ways: it writes the stop request, closes
    the connection and returns nil; or it writes the stop request, logs the
    warning, kills the process once, closes the connection and returns
    what the kill returned.  So the request is always written first and
    once, the connection is always closed last and once, and the process
    is never killed without the warning. *)
Theorem Kill_two_ways st tr c p conn :
  Cmd tr = Some c ->
  Process (cmds st c) = Some p ->
  Connection tr = Some conn ->
  isStillRunning st (Some tr) = true ->
  let request := EWrite conn (mkMessage (GetUniqueID w (length (trace st)))
                                        KillProcessRequest) in
  (fst (Kill w (Some tr) st) = Done tt
   /\ trace (snd (Kill w (Some tr) st)) = trace st ++ [request; EClose conn])
  \/ (fst (Kill w (Some tr) st)
      = match ProcessKill w (Pid p) with None => Done tt | Some e => Fail e end
      /\ trace (snd (Kill w (Some tr) st))
         = trace st
             ++ [request;
                 EWarning ("Killing runner with PID:" +:+ Itoa (Pid p)
                             +:+ " forcefully");
                 EProcessKill (Pid p) (killed w (Pid p));
                 EClose conn]).
Proof.
  intros Hc Hp Hconn Hrun request.
  destruct (poller_returns w (Some tr) (PluginKillTimeout w)
              (record [request] st)) as (b & st2 & Hpoll & Ht & Hpr & _).
  rewrite (Kill_run w st tr c p conn b st2 Hc Hp Hconn Hrun Hpoll Hpr).
  destruct b; [left | right]; cbn [fst snd record trace]; rewrite Ht;
    cbn [record trace]; rewrite <- app_assoc; split; reflexivity.
Qed.

(** X4.  The runner [startRunner] returns has no connection yet, and
    [Kill] on such a runner, while it counts as running, panics instead of
    returning. *)
Theorem Kill_before_handshake m port kc st tr :
  fst (startRunner w m port kc st) = Done tr ->
  Connection tr = None
  /\ forall st',
      isStillRunning st' (Some tr) = true ->
      fst (Kill w (Some tr) st') = Panic.
Proof.
  intros Hdone. pose proof (startRunner_run w m port kc st) as H.
  unfold start_spec in H. rewrite Hdone in H.
  repeat match type of H with
         | match ?x with _ => _ end => destruct x
         | _ /\ _ => destruct H as [H _]
         end; try discriminate H.
  destruct H as (cmd & ch & Htr & _).
  inversion Htr; subst tr; clear Htr.
  split; [reflexivity|].
  intros st' Hrun. unfold Kill, bind, get_st. now rewrite Hrun.
Qed.

End KillExtras.

(** ** The start sequence: what is killed, what is passed on *)

Section StartExtras.
Import GoStrings GoSlice Env Model Launch Spec.
Local Open Scope go_scope.

Variable w : World.

Ltac not_in H :=
  simpl in H; repeat (destruct H as [H|H]; [discriminate H|]); try contradiction.

Lemma killLogs_only_debug pid e :
  In e (killLogs w pid) -> exists msg, e = EDebug msg.
Proof.
  unfold killLogs. destruct (ProcessKill w pid); simpl; [|contradiction].
  intros [<-|[]]. eauto.
Qed.

(** X5.  When [StartRunnerAndMakeConnection] returns a runner, the accept
    succeeded and the runner carries the accepted connection, the command
    started and an unbuffered error channel; the last thing the call did
    is the accept, and it killed no process. *)
Theorem start_success_never_kills m kc tr :
  fst (run (StartRunnerAndMakeConnection w m kc)) = Done tr ->
  (exists cmd conn ch,
      AcceptConnection w = Ok conn
      /\ tr = mkTestRunner (Some cmd) (Some conn) (Some ch)
      /\ chan_cap ch = 0)
  /\ (exists pre,
         trace (snd (run (StartRunnerAndMakeConnection w m kc)))
         = pre ++ [EAccept true])
  /\ (forall pid ok,
         ~ In (EProcessKill pid ok)
              (trace (snd (run (StartRunnerAndMakeConnection w m kc))))).
Proof.
  intros Hdone. pose proof (start_outcomes w m kc) as H.
  rewrite Hdone in H.
  remember (trace (snd (run (StartRunnerAndMakeConnection w m kc)))) as t.
  clear Heqt. inversion H; subst. split; [|split].
  - eauto 10.
  - eexists [_; _; _; _; _; _; _; _]. reflexivity.
  - intros pid' ok Hin. not_in Hin.
Qed.

(** X6.  The start sequence kills a process only after a failed accept,
    and then the process it has spawned itself: a kill in the trace means
    that the call returned the accept's error and that the killed process
    is the one of the command executed. *)
Theorem start_kills_only_its_own m kc pid ok :
  In (EProcessKill pid ok)
     (trace (snd (run (StartRunnerAndMakeConnection w m kc)))) ->
  exists ce command dir env,
    AcceptConnection w = Err ce
    /\ fst (run (StartRunnerAndMakeConnection w m kc)) = Fail ce
    /\ In (EExec command dir env (Some pid))
          (trace (snd (run (StartRunnerAndMakeConnection w m kc))))
    /\ ok = killed w pid.
Proof.
  intros Hin. pose proof (start_outcomes w m kc) as H.
  remember (fst (run (StartRunnerAndMakeConnection w m kc))) as r in *.
  remember (trace (snd (run (StartRunnerAndMakeConnection w m kc)))) as t in *.
  clear Heqr Heqt.
  inversion H; subst; try (not_in Hin; fail).
  apply in_app_or in Hin as [Hin|Hin].
  - simpl in Hin.
    repeat (destruct Hin as [Hin|Hin]; [try discriminate Hin|]);
      [|contradiction].
    inversion Hin; subst.
    exists ce, (getOsSpecificCommand w d), (Dir w p),
           (Some (cleaned (Itoa bound) (Environ w))).
    repeat split; try assumption.
    apply in_or_app. left. simpl. auto 10.
  - apply killLogs_only_debug in Hin as [msg Hmsg]. discriminate Hmsg.
Qed.

(** X7.  When the command cannot be started, [StartRunnerAndMakeConnection]
    returns the error of the spawn at once: the trace stops at the failed
    execution, so no watcher is started, no connection is waited for and
    nothing is killed. *)
Theorem start_spawn_failure m kc bound p c d e :
  NewGaugeConnectionHandler w (portOf w) = Ok bound ->
  GetLanguageJSONFilePath w (Language m) = Ok p ->
  ReadFileContents w p = Ok c ->
  Unmarshal w c = Ok d ->
  CheckCompatibility w (CurrentGaugeVersion w) (GaugeVersionSupport d) = None ->
  ExecuteCommand w (getOsSpecificCommand w d) (Dir w p)
                 (Some (cleaned (Itoa bound) (Environ w))) = Err e ->
  fst (run (StartRunnerAndMakeConnection w m kc)) = Fail e
  /\ trace (snd (run (StartRunnerAndMakeConnection w m kc)))
     = [EBind (portOf w) true; EResolve (Language m) true; ERead p true;
        EParse true; ECompat true;
        EExec (getOsSpecificCommand w d) (Dir w p)
              (Some (cleaned (Itoa bound) (Environ w))) None].
Proof.
  intros E0 E1 E2 E3 E4 E5. pose proof (start_outcomes w m kc) as H.
  remember (fst (run (StartRunnerAndMakeConnection w m kc))) as r in *.
  remember (trace (snd (run (StartRunnerAndMakeConnection w m kc)))) as t in *.
  clear Heqr Heqt.
  inversion H; subst; try congruence.
  assert (bound0 = bound) by congruence. subst bound0.
  assert (p0 = p) by congruence. subst p0.
  assert (c0 = c) by congruence. subst c0.
  assert (d0 = d) by congruence. subst d0.
  split; [congruence | reflexivity].
Qed.

(** X8.  The runner is told the port the listener is bound to: whenever a
    command is executed by [StartRunnerAndMakeConnection], its environment
    holds [GAUGE_INTERNAL_PORT=<bound port in decimal>], and every entry of
    that variable in it is this one. *)
Theorem start_passes_bound_port m kc command dir env pid :
  In (EExec command dir env pid)
     (trace (snd (run (StartRunnerAndMakeConnection w m kc)))) ->
  exists bound e,
    NewGaugeConnectionHandler w (portOf w) = Ok bound
    /\ env = Some e
    /\ In (GaugeInternalPortEnvName +:+ "=" +:+ Itoa bound) e
    /\ forall k, In k e -> isPortEntry k = true ->
                 k = GaugeInternalPortEnvName +:+ "=" +:+ Itoa bound.
Proof.
  intros Hin. pose proof (start_outcomes w m kc) as H.
  remember (fst (run (StartRunnerAndMakeConnection w m kc))) as r in *.
  remember (trace (snd (run (StartRunnerAndMakeConnection w m kc)))) as t in *.
  clear Heqr Heqt.
  assert (Hclean : forall port k,
             In k (cleaned port (Environ w)) -> isPortEntry k = true ->
             k = portEntry port).
  { intros port k Hk Hp. unfold cleaned in Hk.
    apply in_app_or in Hk as [Hk|Hk].
    - apply List.in_map_iff in Hk as (k0 & <- & _).
      rewrite isPortEntry_rewriteEntry in Hp.
      now apply rewriteEntry_port.
    - destruct (List.existsb isPortEntry (Environ w)); simpl in Hk;
        [contradiction|]. now destruct Hk as [<-|[]]. }
  inversion H; subst; try (not_in Hin; fail).
  - simpl in Hin.
    repeat (destruct Hin as [Hin|Hin]; [try discriminate Hin|]);
      [|contradiction].
    inversion Hin; subst.
    exists bound, (cleaned (Itoa bound) (Environ w)).
    repeat split; try assumption;
      [apply portEntry_in_cleaned | apply Hclean].
  - apply in_app_or in Hin as [Hin|Hin].
    + simpl in Hin.
      repeat (destruct Hin as [Hin|Hin]; [try discriminate Hin|]);
        [|contradiction].
      inversion Hin; subst.
      exists bound, (cleaned (Itoa bound) (Environ w)).
      repeat split; try assumption;
        [apply portEntry_in_cleaned | apply Hclean].
    + apply killLogs_only_debug in Hin as [msg Hmsg]. discriminate Hmsg.
  - simpl in Hin.
    repeat (destruct Hin as [Hin|Hin]; [try discriminate Hin|]);
      [|contradiction].
    inversion Hin; subst.
    exists bound, (cleaned (Itoa bound) (Environ w)).
    repeat split; try assumption;
      [apply portEntry_in_cleaned | apply Hclean].
Qed.

End StartExtras.

(** ** Starting, then stopping *)

Section StartThenKill.
Import GoStrings GoSlice Env Model Launch Spec.
Local Open Scope go_scope.

Variable w : World.

(** The state a successful start leaves: the command of the runner holds
    the process that was spawned and has not been waited for. *)
Lemma start_connected_state m kc tr :
  fst (run (StartRunnerAndMakeConnection w m kc)) = Done tr ->
  exists cmd conn ch pid command dir env,
    tr = mkTestRunner (Some cmd) (Some conn) (Some ch)
    /\ AcceptConnection w = Ok conn
    /\ cmds (snd (run (StartRunnerAndMakeConnection w m kc))) cmd
       = mkCmd (Some (mkProcess pid)) None
    /\ In (EExec command dir env (Some pid))
          (trace (snd (run (StartRunnerAndMakeConnection w m kc)))).
Proof.
  unfold run. intros Hdone.
  pose proof (connect_run w m kc init_St) as HC.
  destruct (NewGaugeConnectionHandler w (portOf w)) as [bound|e];
    [|rewrite HC in Hdone; discriminate Hdone].
  cbv zeta in HC.
  pose proof (startRunner_run w m (Itoa bound) kc
                (record [EBind (portOf w) true] init_St)) as HS.
  unfold start_spec in HS.
  destruct (startRunner w m (Itoa bound) kc
              (record [EBind (portOf w) true] init_St)) as [r1 st1].
  cbn [fst snd] in HC, HS.
  destruct r1 as [tr1|e| |];
    try (rewrite HC in Hdone; discriminate Hdone).
  repeat match type of HS with
         | match ?x with _ => _ end => destruct x
         | _ /\ _ => destruct HS as [HS _]
         end; try discriminate HS.
  destruct HS as (cmd & ch & Htr & _ & Hcmd & Ht).
  inversion Htr; subst tr1; clear Htr. cbn [Cmd ErrorChannel] in HC.
  destruct (AcceptConnection w) as [conn|ce].
  - rewrite HC in Hdone |- *. inversion Hdone; subst tr.
    do 7 eexists. split; [reflexivity|]. split; [reflexivity|].
    cbn [snd record cmds trace]. split; [exact Hcmd|].
    rewrite Ht. rewrite !in_app_iff. left. right. right. simpl. eauto.
  - rewrite Hcmd in HC. cbn [Process] in HC. rewrite HC in Hdone.
    discriminate Hdone.
Qed.

(** X9.  Start, then stop a runner that never exits: when
    [StartRunnerAndMakeConnection] has returned a runner and its process
    is still seen running at every check of the grace period, [Kill]
    writes the stop request on the connection that was accepted, kills the
    process that was spawned, and closes that same connection. *)
Theorem start_then_forced_kill m kc tr cmd :
  fst (run (StartRunnerAndMakeConnection w m kc)) = Done tr ->
  Cmd tr = Some cmd ->
  let st := snd (run (StartRunnerAndMakeConnection w m kc)) in
  (forall k, 1 <= k <= PluginKillTimeout w ->
             stillRunning (ProcessStateAfter w cmd (sleeps st + k))) ->
  exists conn pid command dir env,
    AcceptConnection w = Ok conn
    /\ In (EExec command dir env (Some pid)) (trace st)
    /\ fst (Kill w (Some tr) st)
       = match ProcessKill w pid with None => Done tt | Some e => Fail e end
    /\ trace (snd (Kill w (Some tr) st))
       = trace st
           ++ [EWrite conn (mkMessage (GetUniqueID w (length (trace st)))
                                      KillProcessRequest);
               EWarning ("Killing runner with PID:" +:+ Itoa pid
                           +:+ " forcefully");
               EProcessKill pid (killed w pid);
               EClose conn].
Proof.
  intros Hdone Hcmd st Hall.
  destruct (start_connected_state m kc tr Hdone)
    as (cmd' & conn & ch & pid & command & dir & env & -> & Hacc & Hst & Hin).
  cbn [Cmd] in Hcmd. inversion Hcmd; subst cmd'. fold st in Hst, Hin.
  exists conn, pid, command, dir, env.
  split; [exact Hacc|]. split; [exact Hin|].
  set (tr := mkTestRunner (Some cmd) (Some conn) (Some ch)).
  set (st1 := record [EWrite conn (mkMessage (GetUniqueID w (length (trace st)))
                                             KillProcessRequest)] st).
  assert (Hrun : isStillRunning st (Some tr) = true)
    by (unfold isStillRunning, tr; cbn [Cmd]; now rewrite Hst).
  assert (Hrun1 : isStillRunning st1 (Some tr) = true)
    by (rewrite <- Hrun; now apply isStillRunning_cmds).
  destruct (poller_times_out w tr cmd (PluginKillTimeout w) st1 eq_refl Hrun1
              Hall) as (st2 & Hpoll & Ht2 & Hp2).
  assert (Hp : Process (cmds st cmd) = Some (mkProcess pid))
    by now rewrite Hst.
  rewrite (Kill_run w st tr cmd (mkProcess pid) conn false st2
             eq_refl Hp eq_refl Hrun Hpoll Hp2).
  cbn [fst snd record trace Pid]. rewrite Ht2. unfold st1.
  cbn [record trace]. rewrite <- app_assoc. split; reflexivity.
Qed.

End StartThenKill.

(** ** [getCleanEnv]: stale values, repetition, backing arrays *)

Section CleanEnvExtras.
Import GoStrings GoSlice Env Model Launch Spec.

Lemma cleaned_port_entries port l k :
  In k (cleaned port l) -> isPortEntry k = true -> k = portEntry port.
Proof.
  intros Hk Hp. unfold cleaned in Hk. apply in_app_or in Hk as [Hk|Hk].
  - apply List.in_map_iff in Hk as (k0 & <- & _).
    rewrite isPortEntry_rewriteEntry in Hp. now apply rewriteEntry_port.
  - destruct (List.existsb isPortEntry l); simpl in Hk; [contradiction|].
    now destruct Hk as [<-|[]].
Qed.

Lemma rewriteEntry_twice p1 p2 k :
  rewriteEntry p2 (rewriteEntry p1 k) = rewriteEntry p2 k.
Proof.
  unfold rewriteEntry at 2 3. destruct (isPortEntry k) eqn:E.
  - apply rewriteEntry_port, isPortEntry_portEntry.
  - now apply rewriteEntry_other.
Qed.

Lemma existsb_cleaned port l : List.existsb isPortEntry (cleaned port l) = true.
Proof.
  apply List.existsb_exists. exists (portEntry port).
  split; [apply portEntry_in_cleaned | apply isPortEntry_portEntry].
Qed.

Lemma cleaned_twice p1 p2 l : cleaned p2 (cleaned p1 l) = cleaned p2 l.
Proof.
  unfold cleaned at 1. rewrite existsb_cleaned, app_nil_r.
  unfold cleaned. rewrite List.map_app, List.map_map.
  rewrite (List.map_ext _ _ (rewriteEntry_twice p1 p2)).
  destruct (List.existsb isPortEntry l); [reflexivity|].
  simpl. now rewrite (rewriteEntry_port p2 _ (isPortEntry_portEntry p1)).
Qed.

(** X10.  No stale port survives [getCleanEnv]: the environment it returns
    has the entry [GAUGE_INTERNAL_PORT=port], every entry of the port
    variable in it is that entry, whatever the inherited ones were, and it
    is at most one entry longer than the inherited environment. *)
Theorem getCleanEnv_no_stale_port spare port env (h : store) :
  wf h env ->
  In (GaugeInternalPortEnvName +:+ "=" +:+ port) (childEnv spare port env h)
  /\ (forall k, In k (childEnv spare port env h) -> isPortEntry k = true ->
                k = GaugeInternalPortEnvName +:+ "=" +:+ port)
  /\ length (contents h env) <= length (childEnv spare port env h)
     <= S (length (contents h env)).
Proof.
  intros Hwf. rewrite (childEnv_cleaned spare port env h Hwf).
  split; [apply portEntry_in_cleaned|]. split; [apply cleaned_port_entries|].
  unfold cleaned. rewrite length_app, length_map.
  destruct (List.existsb isPortEntry (contents h env)); simpl; lia.
Qed.

(** X11.  The last port wins: cleaning the environment [getCleanEnv] has
    returned once more, for another port, gives what cleaning the inherited
    environment for that port gives, and the second pass appends nothing. *)
Theorem getCleanEnv_again spare p1 p2 env (h : store) :
  wf h env ->
  let env1 := fst (getCleanEnv spare p1 env h) in
  let h1 := snd (getCleanEnv spare p1 env h) in
  childEnv spare p2 env1 h1 = childEnv spare p2 env h
  /\ length (childEnv spare p2 env1 h1) = length (childEnv spare p1 env h)
  /\ fst (getCleanEnv spare p2 env1 h1) = env1.
Proof.
  intros Hwf env1 h1.
  destruct (getCleanEnv spare p1 env h) as [e1 g1] eqn:E1.
  destruct (getCleanEnv_spec _ _ _ _ _ _ Hwf E1) as (Hc & _ & Hwf1 & _).
  cbn [fst snd] in env1, h1. subst env1 h1.
  assert (H1 : childEnv spare p1 env h = cleaned p1 (contents h env))
    by (now apply childEnv_cleaned).
  rewrite (childEnv_cleaned spare p2 e1 g1 Hwf1), Hc, cleaned_twice.
  rewrite (childEnv_cleaned spare p2 env h Hwf), H1.
  split; [reflexivity|]. split.
  - unfold cleaned. rewrite !length_app, !length_map.
    destruct (List.existsb isPortEntry (contents h env)); reflexivity.
  - destruct (getCleanEnv spare p2 e1 g1) as [e2 g2] eqn:E2.
    destruct (getCleanEnv_spec _ _ _ _ _ _ Hwf1 E2) as (_ & _ & _ & _ & H).
    cbn [fst]. apply H. rewrite Hc. apply existsb_cleaned.
Qed.

Lemma view_restored (a : list string) o n :
  o + n <= length a ->
  take o a ++ take n (drop o a) ++ drop (o + n) a = a.
Proof.
  intros _. rewrite <- drop_drop, take_drop. apply take_drop.
Qed.

(** X12.  Where the appended entry goes.  When the port variable is absent
    and the backing array of the caller's slice has room past its end, the
    entry is written into that array and the slice returned shares it; when
    the array is full, the entry goes to a new array and the caller's array
    is left as it was. *)
Theorem getCleanEnv_append_aliasing spare port env (h : store) a :
  h !! base env = Some a ->
  off env + len env <= length a ->
  List.existsb isPortEntry (contents h env) = false ->
  let env' := fst (getCleanEnv spare port env h) in
  let h' := snd (getCleanEnv spare port env h) in
  (len env < cap h env ->
   env' = mkSlice (base env) (off env) (S (len env))
   /\ h' !! base env
      = Some (<[off env + len env := GaugeInternalPortEnvName +:+ "=" +:+ port]> a))
  /\ (cap h env = len env ->
      h !! base env' = None
      /\ h' !! base env = Some a
      /\ h' !! base env'
         = Some (contents h env
                   ++ (GaugeInternalPortEnvName +:+ "=" +:+ port)
                   :: replicate (spare (S (len env))) "")).
Proof.
  intros Ha Hle Habs env' h'. subst env' h'.
  unfold getCleanEnv.
  rewrite (rangeLoop_spec port env (len env) 0 false h a Ha) by lia.
  rewrite Nat.add_0_r, orb_false_l.
  assert (Hc : contents h env = take (len env) (drop (off env) a))
    by (unfold contents; now rewrite Ha).
  rewrite Hc in Habs. rewrite Habs, (map_rewrite_absent _ _ Habs).
  rewrite (view_restored a (off env) (len env) Hle), (insert_id _ _ _ Ha).
  cbn [negb]. unfold append, cap. rewrite Ha.
  destruct (decide (off env + len env < length a)) as [Hroom|Hfull].
  - cbn [fst snd]. split; [|intros; lia].
    intros _. split; [reflexivity|]. now rewrite lookup_insert_eq.
  - cbn [fst snd base]. split; [intros; lia|]. intros _.
    assert (Hfresh : fresh (dom h) ∉ dom h) by apply is_fresh.
    assert (Hne : fresh (dom h) <> base env).
    { intros Heq. apply Hfresh. rewrite Heq. apply elem_of_dom.
      rewrite Ha. eauto. }
    split; [now apply not_elem_of_dom|].
    split; [now rewrite lookup_insert_ne | now rewrite lookup_insert_eq, Hc].
Qed.

End CleanEnvExtras.

(** ** Which entries count as the port variable *)

Section EntryExtras.
Import GoStrings GoSlice Env Model Launch Spec.

Lemma Split_head_whole (n : string) :
  (forall a, In a (list_ascii_of_string n) -> a <> eq_sign) ->
  Split eq_sign n = [n].
Proof.
  induction n as [|a r IH]; intros Hn; [reflexivity|].
  cbn [Split]. destruct (Ascii.eqb_spec a eq_sign) as [->|_].
  - exfalso. apply (Hn eq_sign); [left; reflexivity | reflexivity].
  - rewrite IH; [reflexivity|]. intros b Hb. apply Hn. now right.
Qed.

Lemma Split_head_name (n v : string) :
  (forall a, In a (list_ascii_of_string n) -> a <> eq_sign) ->
  List.hd "" (Split eq_sign (n +:+ String eq_sign v)) = n.
Proof.
  induction n as [|a r IH]; intros Hn.
  - reflexivity.
  - change (String a r +:+ String eq_sign v)
      with (String a (r +:+ String eq_sign v)).
    cbn [Split]. destruct (Ascii.eqb_spec a eq_sign) as [->|_].
    + exfalso. apply (Hn eq_sign); [left; reflexivity | reflexivity].
    + assert (Hr : forall b, In b (list_ascii_of_string r) -> b <> eq_sign)
        by (intros b Hb; apply Hn; now right).
      specialize (IH Hr).
      destruct (Split eq_sign (r +:+ String eq_sign v)) as [|x t] eqn:E.
      * exfalso. eapply Split_nonempty. exact E.
      * cbn [List.hd] in IH |- *. now rewrite IH.
Qed.

Lemma prefix_empty s : String.prefix "" s = true.
Proof. now destruct s. Qed.

Lemma strip_blank s : strip_rune space_runes (String " " s) = Some s.
Proof.
  unfold space_runes, bytes. cbn [List.map string_of_list_ascii strip_rune].
  vm_compute ascii_of_nat. cbn [String.prefix String.length].
  repeat match goal with
         | |- context [ascii_dec ?a ?b] =>
             let E := fresh in
             destruct (ascii_dec a b) as [E|E];
             [try discriminate E | try (exfalso; apply E; reflexivity)]
         end.
  rewrite prefix_empty. cbn [String.substring]. f_equal.
  apply substring_all. lia.
Qed.

(** A leading blank does not change what [TrimSpace] returns. *)
Lemma TrimSpace_blank s : TrimSpace (String " " s) = TrimSpace s.
Proof.
  unfold TrimSpace. cbn [String.length trim_left]. now rewrite strip_blank.
Qed.

(** X13.  Whether an entry counts as the port variable is decided by the
    text before its first [=] alone: for a name without [=], the entry
    [name=value] counts exactly when the bare [name] does, whatever the
    value, a bare name without value included, and a blank before the name
    changes nothing; so [getCleanEnv] rewrites the entries of the variable
    whatever they hold. *)
Theorem isPortEntry_name_only (n v : string) :
  (forall a, In a (list_ascii_of_string n) -> a <> "="%char) ->
  isPortEntry (n +:+ "=" +:+ v) = isPortEntry n
  /\ isPortEntry n
     = String.eqb (TrimSpace n) GaugeInternalPortEnvName
  /\ isPortEntry (" " +:+ n +:+ "=" +:+ v) = isPortEntry n.
Proof.
  intros Hn. unfold isPortEntry.
  change ("=" +:+ v) with (String eq_sign v).
  change ("="%char) with eq_sign.
  rewrite (Split_head_name n v Hn), (Split_head_whole n Hn).
  split; [reflexivity|]. split; [reflexivity|].
  change (" " +:+ n +:+ String eq_sign v)
    with (String " " n +:+ String eq_sign v).
  rewrite (Split_head_name (String " " n) v).
  - cbn [List.hd]. now rewrite TrimSpace_blank.
  - intros a [<-|Ha]; [discriminate | now apply Hn].
Qed.

End EntryExtras.

(** ** [ExecuteInitHookForRunner] *)

Section InitHook.
Import GoStrings GoSlice Env Model Launch Spec.
Local Open Scope go_scope.

Variable w : World.



End InitHook.

(** ** [indent] and [spaces] *)

Section ReporterFacts.
Import GoStrings Reporter.

Lemma length_append_string (s t : string) :
  String.length (s +:+ t) = String.length s + String.length t.
Proof. induction s as [|a s IH]; simpl; [reflexivity | now rewrite IH]. Qed.

Lemma spacesLoop_length k : forall t,
  String.length (spacesLoop k t) = String.length t + k.
Proof.
  induction k as [|k IH]; intros t; simpl; [lia|].
  rewrite IH, length_append_string. simpl. lia.
Qed.

Lemma spacesLoop_blank k : forall t,
  spacesLoop k (String " " t) = String " " (spacesLoop k t).
Proof.
  induction k as [|k IH]; intros t; [reflexivity|].
  cbn [spacesLoop].
  change (String " " t +:+ " ") with (String " " (t +:+ " ")).
  apply IH.
Qed.

Lemma TrimSpace_spacesLoop k t :
  TrimSpace (spacesLoop k "" +:+ t) = TrimSpace t.
Proof.
  induction k as [|k IH]; [reflexivity|].
  cbn [spacesLoop]. change ("" +:+ " ") with (String " " "").
  rewrite spacesLoop_blank.
  change (String " " (spacesLoop k "") +:+ t)
    with (String " " (spacesLoop k "" +:+ t)).
  now rewrite TrimSpace_blank.
Qed.

(** X15.  [indent] sets the indentation, it does not add to it: blanks put
    before the text by [spaces] are dropped, so indenting a text that
    starts with [n] blanks gives what indenting the text itself gives; the
    result is as long as the indentation plus the trimmed text, and for an
    indentation of zero or less it is the trimmed text alone. *)
Theorem indent_sets_indentation (text : string) (n m : Z) :
  indent (spaces n +:+ text) m = indent text m
  /\ String.length (indent text m)
     = Z.to_nat m + String.length (TrimSpace text)
  /\ ((m <= 0)%Z -> indent text m = TrimSpace text).
Proof.
  unfold indent, spaces. split; [|split].
  - now rewrite TrimSpace_spacesLoop.
  - rewrite length_append_string, spacesLoop_length. simpl. lia.
  - intros Hm. replace (Z.to_nat m) with 0 by lia. reflexivity.
Qed.

End ReporterFacts.

(** ** [waitToPrint] *)

Section InstallFacts.
Import Install.

Lemma last_cons (m : string) ms d : List.last (m :: ms) d = List.last ms m.
Proof.
  revert m d. induction ms as [|x ms IH]; intros m d; [reflexivity|].
  change (List.last (m :: x :: ms) d) with (List.last (x :: ms) d).
  now rewrite !IH.
Qed.

Lemma waitToPrint_starved ms : forall message,
  waitToPrint (List.map MessageArrived ms) message = None.
Proof. induction ms as [|m ms IH]; intros message; [reflexivity | apply IH]. Qed.

(** X16.  [waitToPrint] returns at the first print request, whatever
    messages came before it and whatever follows: it has then logged the
    last message received, unless that is empty, and called [wg.Done]
    once, after the log line; without a print request it never returns.
    So [PrintUpdateBuffer] always gets its [wg.Wait] answered, and prints
    the update notice exactly when updates were found in time. *)
Theorem waitToPrint_prints_last ms message rest :
  waitToPrint (List.map MessageArrived ms ++ PrintRequested :: rest) message
  = Some ((if String.eqb (List.last ms message) "" then []
           else [Info (List.last ms message)]) ++ [WgDone])
  /\ waitToPrint (List.map MessageArrived ms) message = None
  /\ printUpdateInfo true = Some [Info updatesAvailable; WgDone]
  /\ printUpdateInfo false = Some [WgDone].
Proof.
  split; [|split; [apply waitToPrint_starved|]].
  - revert message. induction ms as [|m ms IH]; intros message;
      [reflexivity|].
    cbn [List.map app waitToPrint]. now rewrite IH, last_cons.
  - split; reflexivity.
Qed.

End InstallFacts.

(** * The further properties at the sample inputs *)

Section MoreSamples.
Import GoStrings GoSlice Env Model Launch Spec.
Local Open Scope go_scope.

Lemma exiting_before k :
  1 <= k < 2 ->
  stillRunning (ProcessStateAfter exitingWorld 0 (sleeps liveSt + k)).
Proof.
  intros Hk. assert (Hk1 : k = 1) by lia. subst k.
  intros ps Hps. discriminate Hps.
Defined.

(** A second stop of a runner that was killed by force. *)
Lemma Kill_after_signal_exit_sample :
  ProcessState (cmds signalledSt 0) = Some (mkProcessState false)
  /\ isStillRunning signalledSt (Some rubyHandle) = true
  /\ fst (Kill signalledWorld (Some rubyHandle) signalledSt)
     = Fail "os: process already finished"
  /\ trace (snd (Kill signalledWorld (Some rubyHandle) signalledSt))
     = [EWrite 1 (mkMessage 0 KillProcessRequest);
        EWarning "Killing runner with PID:4242 forcefully";
        EProcessKill 4242 false;
        EClose 1].
Proof.
  split; [reflexivity|].
  exact (Kill_after_signal_exit signalledWorld signalledSt rubyHandle 0
           (mkProcess 4242) 1 (mkProcessState false)
           eq_refl eq_refl eq_refl eq_refl eq_refl (fun _ _ => eq_refl)).
Defined.

Example isNull_ex :
  (GoJSON.isNull " null ", GoJSON.isNull "null", GoJSON.isNull "{}",
   GoJSON.isNull "nulls")
  = (true, true, false, false).
Proof. vm_compute. reflexivity. Qed.

(** The init hook on a descriptor file holding [null]. *)
Example init_hook_null_panics :
  let r := run (ExecuteInitHookForRunner nullWorld "ruby") in
  fst r = Panic
  /\ trace (snd r)
     = [EResolve "ruby" true; ERead "/plugins/ruby/ruby.json" true; EParse true].
Proof. vm_compute. split; reflexivity. Qed.

Lemma Kill_graceful_sample :
  isStillRunning liveSt (Some rubyHandle) = true
  /\ 1 <= 2 < PluginKillTimeout exitingWorld
  /\ ProcessStateAfter exitingWorld 0 (sleeps liveSt + 2)
     = Some (mkProcessState true)
  /\ exists st',
      Kill exitingWorld (Some rubyHandle) liveSt = (Done tt, st')
      /\ trace st' = [EWrite 1 (mkMessage 0 KillProcessRequest); EClose 1]
      /\ sleeps st' = 2.
Proof.
  assert (Hj : 1 <= 2 < PluginKillTimeout exitingWorld) by (simpl; lia).
  split; [reflexivity|]. split; [exact Hj|]. split; [reflexivity|].
  destruct (Kill_graceful exitingWorld liveSt rubyHandle 0 1
              (mkProcessState true) 2 eq_refl eq_refl eq_refl Hj
              exiting_before eq_refl eq_refl) as (st' & HK & Ht & Hs & _).
  exists st'. split; [exact HK|]. split; [exact Ht | exact Hs].
Defined.

Lemma Kill_twice_after_graceful_sample :
  isStillRunning liveSt (Some rubyHandle) = true
  /\ (Kill exitingWorld (Some rubyHandle) ;;; Kill exitingWorld (Some rubyHandle))
       liveSt
     = Kill exitingWorld (Some rubyHandle) liveSt.
Proof.
  assert (Hj : 1 <= 2 < PluginKillTimeout exitingWorld) by (simpl; lia).
  split; [reflexivity|].
  exact (Kill_twice_after_graceful exitingWorld liveSt rubyHandle 0 1
           (mkProcessState true) 2 eq_refl eq_refl eq_refl Hj
           exiting_before eq_refl eq_refl).
Defined.

Lemma Kill_two_ways_sample :
  isStillRunning liveSt (Some rubyHandle) = true
  /\ (trace (snd (Kill exitingWorld (Some rubyHandle) liveSt))
      = [EWrite 1 (mkMessage 0 KillProcessRequest); EClose 1]
      \/ trace (snd (Kill exitingWorld (Some rubyHandle) liveSt))
         = [EWrite 1 (mkMessage 0 KillProcessRequest);
            EWarning "Killing runner with PID:4242 forcefully";
            EProcessKill 4242 true; EClose 1]).
Proof.
  split; [reflexivity|].
  destruct (Kill_two_ways exitingWorld liveSt rubyHandle 0 (mkProcess 4242) 1
              eq_refl eq_refl eq_refl eq_refl) as [[_ H]|[_ H]];
    [left | right]; exact H.
Defined.

Lemma Kill_before_handshake_sample :
  let w := rubyWorld None (Ok 1) None in
  let tr := mkTestRunner (Some 0) None (Some (mkChan 0 0)) in
  fst (startRunner w rubyManifest "7777" killChan init_St) = Done tr
  /\ isStillRunning liveSt (Some tr) = true
  /\ fst (Kill w (Some tr) liveSt) = Panic.
Proof.
  intros w tr.
  assert (H : fst (startRunner w rubyManifest "7777" killChan init_St) = Done tr)
    by (vm_compute; reflexivity).
  split; [exact H|]. split; [reflexivity|].
  destruct (Kill_before_handshake w rubyManifest "7777" killChan init_St tr H)
    as [_ HK].
  apply HK. reflexivity.
Defined.

Lemma start_success_never_kills_sample :
  let w := rubyWorld None (Ok 1) None in
  let tr := mkTestRunner (Some 0) (Some 1) (Some (mkChan 0 0)) in
  fst (run (StartRunnerAndMakeConnection w rubyManifest killChan)) = Done tr
  /\ forall pid ok,
      ~ In (EProcessKill pid ok)
           (trace (snd (run (StartRunnerAndMakeConnection w rubyManifest killChan)))).
Proof.
  intros w tr.
  assert (H : fst (run (StartRunnerAndMakeConnection w rubyManifest killChan))
              = Done tr) by (vm_compute; reflexivity).
  split; [exact H|].
  exact (proj2 (proj2 (start_success_never_kills w rubyManifest killChan tr H))).
Defined.

Lemma start_kills_only_its_own_sample :
  let w := rubyWorld None (Err "Timed out connecting to 7777") (Some "no such process") in
  let t := trace (snd (run (StartRunnerAndMakeConnection w rubyManifest killChan))) in
  In (EProcessKill 4242 false) t
  /\ exists ce command dir env,
      AcceptConnection w = Err ce
      /\ In (EExec command dir env (Some 4242%Z)) t.
Proof.
  intros w t.
  assert (H : In (EProcessKill 4242 false) t)
    by (vm_compute; repeat (first [left; reflexivity | right])).
  split; [exact H|].
  destruct (start_kills_only_its_own w rubyManifest killChan 4242 false H)
    as (ce & command & dir & env & Ha & _ & Hin & _).
  exists ce, command, dir, env. split; [exact Ha | exact Hin].
Defined.

Lemma start_spawn_failure_sample :
  let r := run (StartRunnerAndMakeConnection brokenWorld rubyManifest killChan) in
  fst r = Fail "exec: ruby: not found"
  /\ trace (snd r)
     = [EBind 0 true; EResolve "ruby" true; ERead "/plugins/ruby/ruby.json" true;
        EParse true; ECompat true;
        EExec ["ruby"; "run.rb"] "/plugins/ruby"
              (Some ["PATH=/usr/bin"; "GAUGE_INTERNAL_PORT=7777"; "HOME=/root"])
              None].
Proof.
  exact (start_spawn_failure brokenWorld rubyManifest killChan 7777
           "/plugins/ruby/ruby.json" "{}" rubyRunner "exec: ruby: not found"
           eq_refl eq_refl eq_refl eq_refl eq_refl eq_refl).
Defined.

Lemma start_passes_bound_port_sample :
  let w := rubyWorld None (Ok 1) None in
  let env := Some ["PATH=/usr/bin"; "GAUGE_INTERNAL_PORT=7777"; "HOME=/root"] in
  In (EExec ["ruby"; "run.rb"] "/plugins/ruby" env (Some 4242%Z))
     (trace (snd (run (StartRunnerAndMakeConnection w rubyManifest killChan))))
  /\ exists bound e,
      NewGaugeConnectionHandler w (portOf w) = Ok bound
      /\ env = Some e
      /\ In (GaugeInternalPortEnvName +:+ "=" +:+ Itoa bound) e.
Proof.
  intros w env.
  assert (H : In (EExec ["ruby"; "run.rb"] "/plugins/ruby" env (Some 4242%Z))
                 (trace (snd (run (StartRunnerAndMakeConnection w rubyManifest
                                                                killChan)))))
    by (vm_compute; repeat (first [left; reflexivity | right])).
  split; [exact H|].
  destruct (start_passes_bound_port w rubyManifest killChan _ _ _ _ H)
    as (bound & e & Hb & He & Hin & _).
  exists bound, e. split; [exact Hb|]. split; [exact He | exact Hin].
Defined.

Lemma start_then_forced_kill_sample :
  let w := rubyWorld None (Ok 1) None in
  let tr := mkTestRunner (Some 0) (Some 1) (Some (mkChan 0 0)) in
  let st := snd (run (StartRunnerAndMakeConnection w rubyManifest killChan)) in
  fst (run (StartRunnerAndMakeConnection w rubyManifest killChan)) = Done tr
  /\ exists conn pid,
      AcceptConnection w = Ok conn
      /\ trace (snd (Kill w (Some tr) st))
         = trace st
             ++ [EWrite conn (mkMessage (GetUniqueID w (length (trace st)))
                                        KillProcessRequest);
                 EWarning ("Killing runner with PID:" +:+ Itoa pid
                             +:+ " forcefully");
                 EProcessKill pid (killed w pid);
                 EClose conn].
Proof.
  intros w tr st.
  assert (H : fst (run (StartRunnerAndMakeConnection w rubyManifest killChan))
              = Done tr) by (vm_compute; reflexivity).
  split; [exact H|].
  destruct (start_then_forced_kill w rubyManifest killChan tr 0 H eq_refl)
    as (conn & pid & _ & _ & _ & Ha & _ & _ & Ht).
  { intros k _ ps Hps. discriminate Hps. }
  exists conn, pid. split; [exact Ha | exact Ht].
Defined.

Lemma getCleanEnv_no_stale_port_sample :
  wf doubledStore doubledEnv
  /\ forall k, In k (childEnv (fun _ => 0) "7777" doubledEnv doubledStore) ->
               isPortEntry k = true -> k = "GAUGE_INTERNAL_PORT=7777".
Proof.
  split; [exact doubled_wf|].
  exact (proj1 (proj2 (getCleanEnv_no_stale_port (fun _ => 0) "7777"
                         doubledEnv doubledStore doubled_wf))).
Defined.

Lemma getCleanEnv_again_sample :
  wf inheritedStore inheritedEnv
  /\ childEnv (fun _ => 0) "8888"
              (fst (getCleanEnv (fun _ => 0) "7777" inheritedEnv inheritedStore))
              (snd (getCleanEnv (fun _ => 0) "7777" inheritedEnv inheritedStore))
     = childEnv (fun _ => 0) "8888" inheritedEnv inheritedStore.
Proof.
  split; [exact inherited_wf|].
  exact (proj1 (getCleanEnv_again (fun _ => 0) "7777" "8888" inheritedEnv
                  inheritedStore inherited_wf)).
Defined.

Lemma getCleanEnv_append_aliasing_sample :
  roomyStore !! base roomyEnv = Some ["A=b"; "C=d"; ""]
  /\ List.existsb isPortEntry (contents roomyStore roomyEnv) = false
  /\ len roomyEnv < cap roomyStore roomyEnv
  /\ snd (getCleanEnv (fun _ => 0) "7777" roomyEnv roomyStore) !! base roomyEnv
     = Some ["A=b"; "C=d"; "GAUGE_INTERNAL_PORT=7777"].
Proof.
  assert (Hroom : len roomyEnv < cap roomyStore roomyEnv)
    by (vm_compute; lia).
  split; [reflexivity|]. split; [reflexivity|]. split; [exact Hroom|].
  destruct (getCleanEnv_append_aliasing (fun _ => 0) "7777" roomyEnv roomyStore
              ["A=b"; "C=d"; ""] eq_refl) as [H _];
    [simpl; lia | reflexivity |].
  exact (proj2 (H Hroom)).
Defined.

Lemma isPortEntry_name_only_sample :
  (forall a, In a (list_ascii_of_string "GAUGE_INTERNAL_PORT") -> a <> "="%char)
  /\ isPortEntry ("GAUGE_INTERNAL_PORT" +:+ "=" +:+ "")
     = isPortEntry "GAUGE_INTERNAL_PORT".
Proof.
  assert (H : forall a, In a (list_ascii_of_string "GAUGE_INTERNAL_PORT") ->
                        a <> "="%char).
  { intros a Ha. simpl in Ha.
    repeat (destruct Ha as [<-|Ha]; [discriminate|]). contradiction. }
  split; [exact H|].
  exact (proj1 (isPortEntry_name_only "GAUGE_INTERNAL_PORT" "" H)).
Defined.

End MoreSamples.
